(** * Dubbing_Software: the server-side dubbing pipeline

    A shallow embedding of [modal_backend.py]: the rate limiter
    ([check_daily_limit]), the gender classifier ([detect_gender]) and the
    job pipeline ([dub_video]); and of the front end [app.py]: its helpers
    ([download_video_locally], [upload_to_r2]) and the click handler of
    [main] (module [App]).

    Conventions of the embedding.
    - Python floats (timestamps, pitch values, audio samples) are exact
      rationals ([Q]); rounding is not modelled.
    - The process state (the shared rate-limit store, the directories of the
      mounted volume, the module-level model cache) is a record [World]
      threaded through every operation, together with the trace of the calls
      made to external components.
    - The outcome of every call to an external component (HTTP fetch, ffmpeg,
      demucs, whisperx, translator, synthesizers, object storage) is read
      from a record [Env]: it says whether the call returns, with what, or
      raises.
    - A Python function body is a computation in the monad [M]: it continues
      with a value, leaves the function through [return], or raises.
    - [print] statements have no effect on the modelled state. *)

From Stdlib Require Import Ascii String QArith Lqa Sorted.
From stdpp Require Import gmap strings list fin_maps pretty.

Local Open Scope string_scope.
Local Open Scope list_scope.

(** ** Python values, exceptions, responses *)

(** The JSON values a request field holds: a string, or null (Python
    [None]). *)
Inductive jval : Type :=
| JNull
| JStr (s : string).

#[global] Instance jval_eq_dec : EqDecision jval.
Proof. solve_decision. Defined.

(** Exceptions, by the classes the code tells apart. *)
Inductive exn : Type :=
| KeyError (key : string)
| TypeError
| AttributeError
| FfmpegError                (* ffmpeg.Error, raised by ffmpeg-python's run *)
| OtherException (origin : string).

(** The dict returned by [dub_video]: status "error" with a message, or
    status "success" with the retrieval locator. *)
Inductive Response : Type :=
| RespError (message : string)
| RespSuccess (video_url : string).

(** A transcript segment (a whisperx segment dict). [translated_text] is
    absent until the translation loop sets it. *)
Record Segment : Type := mkSegment {
  seg_start : Q;
  seg_end : Q;
  text : string;
  speaker : option string;
  translated_text : option string
}.

(** ** The ffmpeg graph built by the mixing stage *)

Inductive AmixDuration : Type := DurLongest | DurShortest | DurFirst.

(** An input stream, possibly through a [volume] filter. *)
Inductive AudioSrc : Type :=
| AInput (path : string)
| AVolume (gain : Q) (src : AudioSrc).

(** [ffmpeg.filter(srcs, "amix", inputs=.., duration=..)]. *)
Record Amix : Type := mkAmix {
  amix_srcs : list AudioSrc;
  amix_inputs : nat;
  amix_duration : AmixDuration
}.

Record MixGraph : Type := mkMixGraph {
  mg_video_input : string;    (* ffmpeg.input(video_path).video *)
  mg_audio : Amix;
  mg_output : string;
  mg_vcodec : string;
  mg_acodec : string
}.

(** ** Calls to external components, in the order they are made *)

Inductive Event : Type :=
| EvRateGet (client_id : string)
| EvRateSet (client_id : string) (stamps : list Q)
| EvMakedirs (path : string)
| EvHttpGet (url : string)
| EvExtractAudio (src dst : string)
| EvDemucs (out_dir src : string)
| EvRmtree (path : string)
| EvLoadWhisper
| EvTranscribe (audio : string)
| EvLoadAlign (language : string)
| EvAlign (model_language : string)
| EvLoadDiarizer
| EvDiarize (audio : string)
| EvTranslatorInit (target : jval)
| EvTranslate (target : string) (source_text : string)
| EvLoadXTTS
| EvXTTS (tts_text speaker_wav language : string)
| EvDetectGender (audio_path : string)
| EvEdgeTTS (tts_text voice out_file : string)
| EvSfWrite (path : string) (data : list Q) (samplerate : Z)
| EvFfmpegRun (g : MixGraph)
| EvUpload (file key : string)
| EvPresign (key : string).

#[global] Instance AmixDuration_eq_dec : EqDecision AmixDuration.
Proof. solve_decision. Defined.

(** ** The world *)

Record World : Type := mkWorld {
  rate_limiter : gmap string (list Q);   (* modal.Dict "rate-limit-db" *)
  dirs : gset string;                    (* the directories at, above and below BASE_DIR *)
  WHISPER_MODEL : option unit;
  ALIGN_MODEL : option string;           (* the language the cached model was loaded for *)
  DIARIZER : option unit;
  XTTS_MODEL : option unit;
  trace : list Event
}.

Definition emit (e : Event) (w : World) : World :=
  mkWorld (rate_limiter w) (dirs w) (WHISPER_MODEL w) (ALIGN_MODEL w)
          (DIARIZER w) (XTTS_MODEL w) (trace w ++ [e]).

Definition set_rate (r : gmap string (list Q)) (w : World) : World :=
  mkWorld r (dirs w) (WHISPER_MODEL w) (ALIGN_MODEL w)
          (DIARIZER w) (XTTS_MODEL w) (trace w).

Definition set_dirs (d : gset string) (w : World) : World :=
  mkWorld (rate_limiter w) d (WHISPER_MODEL w) (ALIGN_MODEL w)
          (DIARIZER w) (XTTS_MODEL w) (trace w).

Definition set_WHISPER_MODEL (m : option unit) (w : World) : World :=
  mkWorld (rate_limiter w) (dirs w) m (ALIGN_MODEL w)
          (DIARIZER w) (XTTS_MODEL w) (trace w).

Definition set_ALIGN_MODEL (m : option string) (w : World) : World :=
  mkWorld (rate_limiter w) (dirs w) (WHISPER_MODEL w) m
          (DIARIZER w) (XTTS_MODEL w) (trace w).

Definition set_DIARIZER (m : option unit) (w : World) : World :=
  mkWorld (rate_limiter w) (dirs w) (WHISPER_MODEL w) (ALIGN_MODEL w)
          m (XTTS_MODEL w) (trace w).

Definition set_XTTS_MODEL (m : option unit) (w : World) : World :=
  mkWorld (rate_limiter w) (dirs w) (WHISPER_MODEL w) (ALIGN_MODEL w)
          (DIARIZER w) m (trace w).

(** The world after the calls [evs], made in this order. *)
Definition emit_all (evs : list Event) (w : World) : World :=
  mkWorld (rate_limiter w) (dirs w) (WHISPER_MODEL w) (ALIGN_MODEL w)
          (DIARIZER w) (XTTS_MODEL w) (trace w ++ evs).

(** ** The monad of function bodies *)

(** [R] is the type of the values the enclosing function returns. *)
Inductive Res (R A : Type) : Type :=
| Val (a : A)               (* control continues with a value *)
| Ret (r : R)               (* the function executed [return r] *)
| Exc (e : exn).            (* an exception propagates *)

Arguments Val {R A} a.
Arguments Ret {R A} r.
Arguments Exc {R A} e.

Definition M (R A : Type) : Type := World -> Res R A * World.

Definition pure {R A} (a : A) : M R A := fun w => (Val a, w).
Definition return_ {R A} (r : R) : M R A := fun w => (Ret r, w).
Definition raise {R A} (e : exn) : M R A := fun w => (Exc e, w).

Definition bind {R A B} (m : M R A) (k : A -> M R B) : M R B :=
  fun w =>
    match m w with
    | (Val a, w') => k a w'
    | (Ret r, w') => (Ret r, w')
    | (Exc e, w') => (Exc e, w')
    end.

Notation "'let*' x ':=' m 'in' k" := (bind m (fun x => k))
  (at level 10, x pattern, m at level 100, k at level 200).
Notation "m ';;' k" := (bind m (fun _ => k))
  (at level 100, k at level 200, right associativity).

Definition call {R} (e : Event) : M R unit := fun w => (Val tt, emit e w).
Definition get_world {R} : M R World := fun w => (Val w, w).
Definition modify {R} (f : World -> World) : M R unit := fun w => (Val tt, f w).

(** An external call: it returns [a], or raises. *)
Definition external {R A} (e : Event) (origin : string) (o : option A) : M R A :=
  call e ;;
  match o with
  | Some a => pure a
  | None => raise (OtherException origin)
  end.

(** [try: body except <class>: handler]; [caught] tells the exceptions of
    the class. A [return] inside the body leaves the function. *)
Definition try_except {R A} (body : M R A) (caught : exn -> bool)
    (handler : exn -> M R A) : M R A :=
  fun w =>
    match body w with
    | (Exc e, w') => if caught e then handler e w' else (Exc e, w')
    | other => other
    end.

(** [except Exception] and the bare [except] catch every exception of the
    model; [except ffmpeg.Error] catches that class only. *)
Definition any_exception (e : exn) : bool := true.
Definition ffmpeg_Error (e : exn) : bool :=
  match e with FfmpegError => true | _ => false end.

(** The call of a function with body [body]: what it returns, by [return]
    or at the end of the body, is the value of the call. *)
Definition fn {R S} (body : M R R) : M S R :=
  fun w =>
    match body w with
    | (Val r, w') => (Val r, w')
    | (Ret r, w') => (Val r, w')
    | (Exc e, w') => (Exc e, w')
    end.

(** The outcome of a request handler. *)
Inductive Outcome : Type :=
| Returned (r : Response)
| Raised (e : exn).

Definition handle (body : M Response Response) (w : World) : Outcome * World :=
  match body w with
  | (Val r, w') => (Returned r, w')
  | (Ret r, w') => (Returned r, w')
  | (Exc e, w') => (Raised e, w')
  end.

(** ** The environment of one job *)

Record Env : Type := mkEnv {
  now : Q;                                         (* time.time() *)
  makedirs : string -> option unit;                (* os.makedirs *)
  http_get : string -> option unit;                (* requests.get, raise_for_status, write to disk *)
  ffmpeg_extract : option unit;                    (* subprocess.run(ffmpeg ..., check=True) *)
  demucs : option unit;                            (* subprocess.run(demucs ..., check=True) *)
  demucs_dirs : list string;                       (* the directories demucs makes, relative to its
                                                      output directory, whether it then fails or not *)
  walk_vocals : option string;                     (* the directory where os.walk finds vocals.wav *)
  load_model : option unit;                        (* whisperx.load_model *)
  transcribe : string -> option (string * list Segment);  (* load_audio, transcribe: language, segments *)
  load_align_model : string -> option unit;        (* whisperx.load_align_model(lang) *)
  align : string -> list Segment -> option (list Segment); (* whisperx.align, by the model's language *)
  DiarizationPipeline : option unit;               (* whisperx.DiarizationPipeline *)
  assign_word_speakers : list Segment -> option (list Segment); (* DIARIZER(audio), assign_word_speakers *)
  GoogleTranslator : string -> option unit;        (* GoogleTranslator(source="auto", target=..) *)
  translate : nat -> string -> option string;      (* translator.translate on segment i *)
  load_xtts : option unit;                         (* TTS(...).to("cuda") *)
  xtts_tts : nat -> string -> option (list Q);     (* XTTS_MODEL.tts on segment i *)
  pyin : string -> Q -> Q -> Q -> option (list (option Q));
                                                   (* librosa.load(path, duration=..), librosa.pyin(fmin=.., fmax=..):
                                                      f0 per frame, NaN as None *)
  edge_tts : nat -> string -> string -> option (list Q);  (* generate_edge_tts, librosa.load, os.remove *)
  sf_write : list Q -> option unit;                (* soundfile.write *)
  ffmpeg_run : MixGraph -> option exn;             (* ffmpeg output(...).run: the exception, if any *)
  upload_file : string -> string -> option unit;   (* boto3 client, upload_file *)
  generate_presigned_url : string -> option string
}.

(** ** check_daily_limit (lines 66-92) *)

Definition Qlt_bool (x y : Q) : bool := negb (Qle_bool y x).

(** [not v] on a request field: None and the empty string are falsy. *)
Definition not_ (v : jval) : bool :=
  match v with
  | JNull => true
  | JStr s => bool_decide (s = "")
  end.

(** [rate_limiter.get(client_id, [])]. *)
Definition rate_get (cid : string) (w : World) : list Q :=
  default [] (rate_limiter w !! cid).

Definition check_daily_limit {S} (env : Env) (client_id : jval) : M S bool :=
  fn (
    match client_id with
    | JNull => return_ true
    | JStr cid =>
      (if not_ client_id || bool_decide (cid = "anonymous")
       then return_ true else pure tt) ;;
      let now := now env in
      let* w := get_world in
      call (EvRateGet cid) ;;
      let timestamps := rate_get cid w in
      let valid_timestamps :=
        List.filter (fun t => Qlt_bool (now - t) 86400) timestamps in
      (if (3 <=? length valid_timestamps)%nat
       then return_ false else pure tt) ;;
      let valid_timestamps := valid_timestamps ++ [now] in
      call (EvRateSet cid valid_timestamps) ;;
      modify (fun w => set_rate (<[cid := valid_timestamps]> (rate_limiter w)) w) ;;
      return_ true
    end).

(** ** detect_gender (lines 94-118) *)

Definition Qsum (l : list Q) : Q := fold_right Qplus 0%Q l.

(** [np.nanmean]: the mean of the entries that are not NaN; NaN when there
    is none. *)
Definition nanmean (f0 : list (option Q)) : option Q :=
  let voiced := omap id f0 in
  match voiced with
  | [] => None
  | _ => Some (Qsum voiced / inject_Z (Z.of_nat (length voiced)))%Q
  end.

Definition detect_gender {S} (env : Env) (audio_path : string) : M S string :=
  fn (
    call (EvDetectGender audio_path) ;;
    try_except
      (let* f0 := match pyin env audio_path 30 50 400 with
                  | Some f0 => pure f0
                  | None => raise (OtherException "librosa")
                  end in
       let mean_pitch := nanmean f0 in
       match mean_pitch with
       | None => return_ "Male"
       | Some mean_pitch =>
         return_ (if Qlt_bool 165 mean_pitch then "Female" else "Male")
       end)
      any_exception
      (fun _ => return_ "Male")).

(** ** dub_video (lines 135-355) *)

Definition MOUNT_PATH : string := "/data".
Definition BASE_DIR : string := (MOUNT_PATH ++ "/dubbing")%string.

Definition newline : ascii := "010"%char.

(** The character class [[a-zA-Z0-9_-]]. *)
Definition safe_char (c : ascii) : bool :=
  let n := N_of_ascii c in
  ((97 <=? n) && (n <=? 122) || (65 <=? n) && (n <=? 90) ||
   (48 <=? n) && (n <=? 57) || (n =? 95) || (n =? 45))%N.

(** The rest of the pattern after the first character of the class:
    [[a-zA-Z0-9_-]*$]. Python's [$] matches at the end of the string and
    also just before a newline that ends the string. *)
Fixpoint match_rest (s : string) : bool :=
  match s with
  | EmptyString => true
  | String c rest =>
    if safe_char c then match_rest rest
    else Ascii.eqb c newline && String.eqb rest ""
  end.

(** [re.match(r"^[a-zA-Z0-9_-]+$", s)] is not None. *)
Definition re_match_job_id (s : string) : bool :=
  match s with
  | EmptyString => false
  | String c rest => safe_char c && match_rest rest
  end.

(** [item[k]] and [item.get(k, d)] on the request dict. *)
Definition item_index {R} (item : gmap string jval) (k : string) : M R jval :=
  match item !! k with
  | Some v => pure v
  | None => raise (KeyError k)
  end.

Definition item_get (item : gmap string jval) (k d : string) : jval :=
  default (JStr d) (item !! k).

(** The prefixes of the path [done ++ rest] that end where a "/" of [rest]
    begins, and the path itself. *)
Fixpoint path_prefixes (done rest : string) : list string :=
  match rest with
  | EmptyString => [done]
  | String c rest' =>
    (if Ascii.eqb c "/" then [done] else []) ++
    path_prefixes (done ++ String c "") rest'
  end.

(** What [mkdir -p path] makes sure exists: the directory and every
    directory above it, the root apart. *)
Definition with_parents (path : string) : list string :=
  List.filter (fun d => negb (String.eqb d "")) (path_prefixes "" path).

(** [os.makedirs(path, exist_ok=True)]: it creates the directories above
    [path] that are missing, too. *)
Definition makedirs_ {R} (env : Env) (path : string) : M R unit :=
  external (EvMakedirs path) "os.makedirs" (makedirs env path) ;;
  modify (fun w => set_dirs (list_to_set (with_parents path) ∪ dirs w) w).

(** [d] is the directory [path] or lies below it. *)
Definition in_tree (path d : string) : bool :=
  String.eqb d path || String.prefix (path ++ "/") d.

(** [shutil.rmtree(path, ignore_errors=True)], taken to succeed: the
    directory goes with everything below it. *)
Definition rmtree {R} (path : string) : M R unit :=
  call (EvRmtree path) ;;
  modify (fun w => set_dirs (filter (fun d => in_tree path d = false) (dirs w)) w).

(** Lines 166-179. *)
Definition security_checks (job_id video_url : jval) : M Response unit :=
  let* matched := match job_id with
                  | JStr s => pure (re_match_job_id s)
                  | JNull => raise TypeError
                  end in
  (if negb matched
   then return_ (RespError "Invalid job_id format. Security Block.")
   else pure tt) ;;
  let* ok := match video_url with
             | JStr u => pure (String.prefix "http://" u || String.prefix "https://" u)
             | JNull => raise AttributeError
             end in
  if negb ok then return_ (RespError "Invalid URL scheme.") else pure tt.

(** Lines 197-204. *)
Definition download_video (env : Env) (video_url : string) : M Response unit :=
  external (EvHttpGet video_url) "requests" (http_get env video_url).

(** Lines 206-213. *)
Definition extract_audio (env : Env) (video_path audio_path : string) : M Response unit :=
  external (EvExtractAudio video_path audio_path) "subprocess" (ffmpeg_extract env).

(** The directories demucs has made under its output directory [out] when
    it ends. *)
Definition demucs_created (env : Env) (out : string) : list string :=
  concat (map (fun d => with_parents (out ++ "/" ++ d)%string) (demucs_dirs env)).

(** Lines 215-232: the paths of the vocal and of the background stem. *)
Definition separate_vocals (env : Env) (job_dir audio_path : string)
  : M Response (string * string) :=
  let demucs_out := (job_dir ++ "/separated")%string in
  call (EvDemucs demucs_out audio_path) ;;
  modify (fun w => set_dirs (list_to_set (demucs_created env demucs_out) ∪ dirs w) w) ;;
  match demucs env with
  | Some _ => pure tt
  | None => raise (OtherException "subprocess")
  end ;;
  match walk_vocals env with
  | Some root => pure ((root ++ "/vocals.wav")%string, (root ++ "/no_vocals.wav")%string)
  | None =>
    rmtree job_dir ;;
    return_ (RespError "Demucs failed")
  end.

(** Lines 234-252. *)
Definition transcription (env : Env) (vocals : string) : M Response (list Segment) :=
  let* w := get_world in
  match WHISPER_MODEL w with
  | None =>
    external EvLoadWhisper "whisperx.load_model" (load_model env) ;;
    modify (set_WHISPER_MODEL (Some tt))
  | Some _ => pure tt
  end ;;
  let* (lang, segments) :=
    external (EvTranscribe vocals) "whisperx.transcribe" (transcribe env vocals) in
  let* w := get_world in
  match ALIGN_MODEL w with
  | None =>
    external (EvLoadAlign lang) "whisperx.load_align_model" (load_align_model env lang) ;;
    modify (set_ALIGN_MODEL (Some lang))
  | Some _ => pure tt
  end ;;
  let* w := get_world in
  let model_language := default lang (ALIGN_MODEL w) in
  let* segments :=
    external (EvAlign model_language) "whisperx.align"
             (align env model_language segments) in
  let* w := get_world in
  match DIARIZER w with
  | None =>
    external EvLoadDiarizer "whisperx.DiarizationPipeline" (DiarizationPipeline env) ;;
    modify (set_DIARIZER (Some tt))
  | Some _ => pure tt
  end ;;
  external (EvDiarize vocals) "whisperx.assign_word_speakers"
           (assign_word_speakers env segments).

Definition set_translated_text (seg : Segment) (t : string) : Segment :=
  mkSegment (seg_start seg) (seg_end seg) (text seg) (speaker seg) (Some t).

(** Lines 257-261, from segment [i] on. *)
Fixpoint translate_loop (env : Env) (target_lang : string) (i : nat)
    (segments : list Segment) : M Response (list Segment) :=
  match segments with
  | [] => pure []
  | seg :: rest =>
    let* seg' :=
      try_except
        (let* t := external (EvTranslate target_lang (text seg)) "translate"
                            (translate env i (text seg)) in
         pure (set_translated_text seg t))
        any_exception
        (fun _ => pure (set_translated_text seg (text seg))) in
    let* rest' := translate_loop env target_lang (S i) rest in
    pure (seg' :: rest')
  end.

(** Lines 254-261. [GoogleTranslator] refuses a target that is not a
    language it knows, None among them. *)
Definition translation (env : Env) (target_lang : jval) (segments : list Segment)
  : M Response (string * list Segment) :=
  call (EvTranslatorInit target_lang) ;;
  let* target := match target_lang with
                 | JStr t =>
                   match GoogleTranslator env t with
                   | Some _ => pure t
                   | None => raise (OtherException "GoogleTranslator")
                   end
                 | JNull => raise (OtherException "GoogleTranslator")
                 end in
  let* segments := translate_loop env target 0 segments in
  pure (target, segments).

Definition xtts_langs : list string :=
  ["en";"es";"fr";"de";"it";"pt";"pl";"tr";"ru";"nl";"cs";"ar";"zh";"ja";"ko";"hi"].

(** [not seg.get("translated_text")]. *)
Definition no_translated_text (seg : Segment) : bool :=
  match translated_text seg with
  | None => true
  | Some t => String.eqb t ""
  end.

(** Lines 274-280, from segment [i] on. *)
Fixpoint xtts_loop (env : Env) (vocals target_lang : string) (i : nat)
    (segments : list Segment) (combined : list Q) : M Response (list Q) :=
  match segments with
  | [] => pure combined
  | seg :: rest =>
    if no_translated_text seg then xtts_loop env vocals target_lang (S i) rest combined
    else
      let t := default "" (translated_text seg) in
      let* combined :=
        try_except
          (let* wav := external (EvXTTS t vocals target_lang) "XTTS"
                                (xtts_tts env i t) in
           pure (combined ++ wav))
          any_exception
          (fun _ => pure combined) in
      xtts_loop env vocals target_lang (S i) rest combined
  end.

(** The voice table of lines 293-302. *)
Definition voices (male female : string) : gmap string string :=
  <["Male" := male]> (<["Female" := female]> ∅).

Definition edge_voices : gmap string (gmap string string) :=
  list_to_map [
    ("kn", voices "kn-IN-GaganNeural" "kn-IN-SapnaNeural");
    ("te", voices "te-IN-MohanNeural" "te-IN-ShrutiNeural");
    ("ta", voices "ta-IN-ValluvarNeural" "ta-IN-PallaviNeural");
    ("ml", voices "ml-IN-MidhunNeural" "ml-IN-SobhanaNeural");
    ("mr", voices "mr-IN-ManoharNeural" "mr-IN-AarohiNeural");
    ("gu", voices "gu-IN-NiranjanNeural" "gu-IN-DhwaniNeural");
    ("bn", voices "bn-BD-PradeepNeural" "bn-BD-NabanitaNeural");
    ("ur", voices "ur-PK-UzairNeural" "ur-PK-UzmaNeural")
  ].

(** Lines 305-306. *)
Definition select_voice (target_lang gender : string) : M Response string :=
  let lang_voices :=
    default (voices "en-US-ChristopherNeural" "en-US-JennyNeural")
            (edge_voices !! target_lang) in
  let* male := match lang_voices !! "Male" with
               | Some v => pure v
               | None => raise (KeyError "Male")
               end in
  pure (default male (lang_voices !! gender)).

(** Lines 309-324, from segment [i] on. *)
Fixpoint edge_loop (env : Env) (job_dir selected_voice : string) (i : nat)
    (segments : list Segment) (combined : list Q) : M Response (list Q) :=
  match segments with
  | [] => pure combined
  | seg :: rest =>
    if no_translated_text seg then edge_loop env job_dir selected_voice (S i) rest combined
    else
      let t := default "" (translated_text seg) in
      let* combined :=
        try_except
          (let temp_seg_file := (job_dir ++ "/temp_" ++ pretty i ++ ".mp3")%string in
           let* seg_wav := external (EvEdgeTTS t selected_voice temp_seg_file) "EdgeTTS"
                                    (edge_tts env i t selected_voice) in
           pure (combined ++ seg_wav))
          any_exception
          (fun _ => pure combined) in
      edge_loop env job_dir selected_voice (S i) rest combined
  end.

(** Lines 263-326. *)
Definition synthesis (env : Env) (job_dir vocals dubbed_audio target_lang : string)
    (segments : list Segment) : M Response unit :=
  let combined := [] in
  if bool_decide (target_lang ∈ xtts_langs) then
    let* w := get_world in
    match XTTS_MODEL w with
    | None =>
      external EvLoadXTTS "TTS" (load_xtts env) ;;
      modify (set_XTTS_MODEL (Some tt))
    | Some _ => pure tt
    end ;;
    let* combined := xtts_loop env vocals target_lang 0 segments combined in
    external (EvSfWrite dubbed_audio combined 24000) "soundfile" (sf_write env combined)
  else
    let* gender := detect_gender env vocals in
    let* selected_voice := select_voice target_lang gender in
    let* combined := edge_loop env job_dir selected_voice 0 segments combined in
    external (EvSfWrite dubbed_audio combined 24000) "soundfile" (sf_write env combined).

(** Lines 331-335: the graph handed to ffmpeg. *)
Definition mix_graph (video_path dubbed_audio bg final_video : string) : MixGraph :=
  let a_stream := AInput dubbed_audio in
  let bg_stream := AVolume 0.5 (AInput bg) in
  let mixed := mkAmix [a_stream; bg_stream] 2 DurFirst in
  mkMixGraph video_path mixed final_video "copy" "aac".

(** Lines 328-339. *)
Definition mixing (env : Env) (job_dir video_path dubbed_audio bg final_video : string)
  : M Response unit :=
  try_except
    (let g := mix_graph video_path dubbed_audio bg final_video in
     call (EvFfmpegRun g) ;;
     match ffmpeg_run env g with
     | None => pure tt
     | Some e => raise e
     end)
    ffmpeg_Error
    (fun _ =>
       rmtree job_dir ;;
       return_ (RespError "Mixing failed")).

(** Lines 341-351. *)
Definition upload (env : Env) (job_id final_video : string) : M Response string :=
  let key := ("dubbed/" ++ job_id ++ ".mp4")%string in
  external (EvUpload final_video key) "boto3" (upload_file env final_video key) ;;
  external (EvPresign key) "boto3" (generate_presigned_url env key).

(** The value of a request field used as a string; the security checks have
    raised on anything else before this is reached. *)
Definition str_of (v : jval) : string :=
  match v with JStr s => s | JNull => "None" end.

Definition dub_video_body (env : Env) (item : gmap string jval) : M Response Response :=
  let* job_id := item_index item "job_id" in
  let* video_url := item_index item "video_url" in
  let target_lang := item_get item "target_lang" "hi" in
  let client_id := item_get item "client_id" "unknown_user" in
  security_checks job_id video_url ;;
  let job_id := str_of job_id in
  let video_url := str_of video_url in
  let* allowed := check_daily_limit env client_id in
  (if negb allowed
   then return_ (RespError "Daily limit reached (3/3). Please try again in 24 hours.")
   else pure tt) ;;
  let job_dir := (BASE_DIR ++ "/" ++ job_id)%string in
  makedirs_ env job_dir ;;
  let video_path := (job_dir ++ "/video.mp4")%string in
  let audio_path := (job_dir ++ "/audio.wav")%string in
  let dubbed_audio := (job_dir ++ "/dubbed.wav")%string in
  let final_video := (job_dir ++ "/final_dubbed.mp4")%string in
  download_video env video_url ;;
  extract_audio env video_path audio_path ;;
  let* (vocals, bg) := separate_vocals env job_dir audio_path in
  let* segments := transcription env vocals in
  let* (target_lang, segments) := translation env target_lang segments in
  synthesis env job_dir vocals dubbed_audio target_lang segments ;;
  mixing env job_dir video_path dubbed_audio bg final_video ;;
  let* url := upload env job_id final_video in
  rmtree job_dir ;;
  return_ (RespSuccess url).

Definition dub_video (env : Env) (item : gmap string jval) (w : World)
  : Outcome * World :=
  handle (dub_video_body env item) w.

(** ** Auxiliary notions and sample data *)

(** The stamps of a record that are not older than 24 hours at [now]. *)
Definition valid_at (now : Q) (timestamps : list Q) : list Q :=
  List.filter (fun t => Qlt_bool (now - t) 86400) timestamps.

(** The identifiers the rate limiter does not meter. *)
Definition unmetered (client_id : jval) : Prop :=
  client_id = JNull \/ client_id = JStr "" \/ client_id = JStr "anonymous".

Definition seg_hello : Segment := mkSegment 0 1.5 "hello" None None.
Definition seg_world : Segment := mkSegment 1.5 3 "world" (Some "SPEAKER_00") None.

(** The environment of a sample job: every external call succeeds but
    those given as parameters. *)
Definition sample_env
    (fetched : option unit) (vocals_dir : option string) (language : string)
    (translated : nat -> string -> option string)
    (cloned spoken : option (list Q))
    (f0 : option (list (option Q))) (mix_error : option exn) : Env := {|
  now := 100000;
  makedirs := fun _ => Some tt;
  http_get := fun _ => fetched;
  ffmpeg_extract := Some tt;
  demucs := Some tt;
  demucs_dirs := ["htdemucs/audio"];
  walk_vocals := vocals_dir;
  load_model := Some tt;
  transcribe := fun _ => Some (language, [seg_hello; seg_world]);
  load_align_model := fun _ => Some tt;
  align := fun _ segments => Some segments;
  DiarizationPipeline := Some tt;
  assign_word_speakers := fun segments => Some segments;
  GoogleTranslator := fun _ => Some tt;
  translate := translated;
  load_xtts := Some tt;
  xtts_tts := fun _ _ => cloned;
  pyin := fun _ _ _ _ => f0;
  edge_tts := fun _ _ _ => spoken;
  sf_write := fun _ => Some tt;
  ffmpeg_run := fun _ => mix_error;
  upload_file := fun _ _ => Some tt;
  generate_presigned_url := fun key => Some ("https://r2.example/" ++ key)%string
|}.

Definition sample_root : string :=
  "/data/dubbing/job_1700000000/separated/htdemucs/audio".

(** The translation of the first segment fails. *)
Definition translate_second_only (i : nat) (t : string) : option string :=
  if Nat.eqb i 0 then None else Some ("tr:" ++ t)%string.

(** A job in which every external call succeeds, but the translation of
    the first segment. *)
Definition env_ok : Env :=
  sample_env (Some tt) (Some sample_root) "en" translate_second_only
             (Some [0.25; 0.5]%Q) (Some [0.75%Q])
             (Some [None; Some 200%Q; Some 180%Q]) None.

(** The fetch of the source video fails. *)
Definition env_fetch_fails : Env :=
  sample_env None (Some sample_root) "en" translate_second_only
             (Some [0.25; 0.5]%Q) (Some [0.75%Q])
             (Some [None; Some 200%Q; Some 180%Q]) None.


(** ffmpeg fails on the mix. *)
Definition env_mix_fails : Env :=
  sample_env (Some tt) (Some sample_root) "en" translate_second_only
             (Some [0.25; 0.5]%Q) (Some [0.75%Q])
             (Some [None; Some 200%Q; Some 180%Q]) (Some FfmpegError).

(** The recognizer detects French. *)
Definition env_french : Env :=
  sample_env (Some tt) (Some "/data/dubbing/job_1700000060/separated/htdemucs/audio")
             "fr" translate_second_only
             (Some [0.25; 0.5]%Q) (Some [0.75%Q])
             (Some [None; Some 200%Q; Some 180%Q]) None.

(** The separation leaves no vocals.wav. *)
Definition env_no_vocals : Env :=
  sample_env (Some tt) None "en" translate_second_only
             (Some [0.25; 0.5]%Q) (Some [0.75%Q])
             (Some [None; Some 200%Q; Some 180%Q]) None.

(** A fresh worker process: empty store, empty volume, nothing cached. *)
Definition world0 : World := mkWorld ∅ ∅ None None None None [].

(** A worker whose store holds three stamps for two clients. *)
Definition world_used : World :=
  mkWorld (<["unknown_user" := [99000; 99500; 99900]%Q]>
             (<["alice" := [20000; 99500; 99900]%Q]> ∅))
          ∅ None None None None [].

Definition request (job_id video_url target_lang : string) : gmap string jval :=
  <["job_id" := JStr job_id]>
    (<["video_url" := JStr video_url]>
       (<["target_lang" := JStr target_lang]> ∅)).

(** *** The pipeline cut at its stages *)

(** The state of a job when control reaches the translation (line 254). *)
Record Job : Type := mkJob {
  job_id : string;
  job_dir : string;
  target_lang : jval;
  vocals : string;
  bg : string;
  segments : list Segment
}.

Definition video_path (job_dir : string) : string := (job_dir ++ "/video.mp4")%string.
Definition audio_path (job_dir : string) : string := (job_dir ++ "/audio.wav")%string.
Definition dubbed_audio (job_dir : string) : string := (job_dir ++ "/dubbed.wav")%string.
Definition final_video (job_dir : string) : string := (job_dir ++ "/final_dubbed.mp4")%string.

(** Lines 161-252 of [dub_video]: from the request to the transcript. *)
Definition acquisition (env : Env) (item : gmap string jval) : M Response Job :=
  let* job_id := item_index item "job_id" in
  let* video_url := item_index item "video_url" in
  let target_lang := item_get item "target_lang" "hi" in
  let client_id := item_get item "client_id" "unknown_user" in
  security_checks job_id video_url ;;
  let job_id := str_of job_id in
  let video_url := str_of video_url in
  let* allowed := check_daily_limit env client_id in
  (if negb allowed
   then return_ (RespError "Daily limit reached (3/3). Please try again in 24 hours.")
   else pure tt) ;;
  let job_dir := (BASE_DIR ++ "/" ++ job_id)%string in
  makedirs_ env job_dir ;;
  download_video env video_url ;;
  extract_audio env (video_path job_dir) (audio_path job_dir) ;;
  let* (vocals, bg) := separate_vocals env job_dir (audio_path job_dir) in
  let* segments := transcription env vocals in
  pure (mkJob job_id job_dir target_lang vocals bg segments).

(** Lines 341-355. *)
Definition dub_from_upload (env : Env) (job_id job_dir : string) : M Response Response :=
  let* url := upload env job_id (final_video job_dir) in
  rmtree job_dir ;;
  return_ (RespSuccess url).

(** Lines 328-355. *)
Definition dub_from_mixing (env : Env) (job_id job_dir bg : string) : M Response Response :=
  mixing env job_dir (video_path job_dir) (dubbed_audio job_dir) bg (final_video job_dir) ;;
  dub_from_upload env job_id job_dir.

(** Lines 263-355. *)
Definition dub_from_synthesis (env : Env) (job_id job_dir vocals bg target_lang : string)
    (segments : list Segment) : M Response Response :=
  synthesis env job_dir vocals (dubbed_audio job_dir) target_lang segments ;;
  dub_from_mixing env job_id job_dir bg.

(** Lines 254-355. *)
Definition dub_from_translation (env : Env) (job : Job) : M Response Response :=
  let* (target, translated) := translation env (target_lang job) (segments job) in
  dub_from_synthesis env (job_id job) (job_dir job) (vocals job) (bg job) target translated.

(** What the translation loop leaves in the segments, from segment [i] on:
    the translation where the call returned one, the source text where it
    raised. *)
Fixpoint translated_segments (tr : nat -> string -> option string) (i : nat)
    (segments : list Segment) : list Segment :=
  match segments with
  | [] => []
  | seg :: rest =>
    set_translated_text seg (default (text seg) (tr i (text seg)))
      :: translated_segments tr (S i) rest
  end.

(** The segments the synthesis loops speak, from segment [i] on: the index
    and the translated text of those whose translated text is not empty. *)
Fixpoint speakable (i : nat) (segments : list Segment) : list (nat * string) :=
  match segments with
  | [] => []
  | seg :: rest =>
    if no_translated_text seg then speakable (Datatypes.S i) rest
    else (i, default "" (translated_text seg)) :: speakable (Datatypes.S i) rest
  end.

(** The waveforms of the calls that returned, in the order of the calls. *)
Definition waveforms (tts : nat -> string -> option (list Q))
    (calls : list (nat * string)) : list Q :=
  concat (map (fun c => default [] (tts c.1 c.2)) calls).

Definition temp_seg_file (job_dir : string) (i : nat) : string :=
  (job_dir ++ "/temp_" ++ pretty i ++ ".mp3")%string.

(** The voice pair of a target language in the fallback mode. *)
Definition voice_pair (target_lang : string) : list string :=
  match edge_voices !! target_lang with
  | Some lang_voices => map snd (map_to_list lang_voices)
  | None => ["en-US-ChristopherNeural"; "en-US-JennyNeural"]
  end.

Definition sample_job : Job :=
  mkJob "job_1700000000" "/data/dubbing/job_1700000000" (JStr "kn")
        (sample_root ++ "/vocals.wav") (sample_root ++ "/no_vocals.wav")
        [seg_hello; seg_world].

(** *** The duration of the mix *)

(** The duration of the output of ffmpeg's [amix] filter, from the
    durations of its inputs in the order they are given: by the filter's
    [duration] option it is that of the longest input, of the shortest, or of
    the first. *)
Definition amix_output_length (d : AmixDuration) (lengths : list nat) : nat :=
  match d with
  | DurLongest => fold_right Nat.max 0%nat lengths
  | DurShortest => match lengths with
                   | [] => 0%nat
                   | l :: rest => fold_right Nat.min l rest
                   end
  | DurFirst => hd 0%nat lengths
  end.

(** A [volume] filter does not change the duration of its input. *)
Fixpoint src_length (len : string -> nat) (s : AudioSrc) : nat :=
  match s with
  | AInput path => len path
  | AVolume _ src => src_length len src
  end.

(** The amplitude of a source relative to the file it reads. *)
Fixpoint src_gain (s : AudioSrc) : Q :=
  match s with
  | AInput _ => 1
  | AVolume gain src => gain * src_gain src
  end.

(** The duration of the audio of the output of a graph, [len] giving the
    durations of the files. *)
Definition mixed_length (g : MixGraph) (len : string -> nat) : nat :=
  amix_output_length (amix_duration (mg_audio g))
                     (map (src_length len) (amix_srcs (mg_audio g))).

(** A dubbed track of 5 seconds and a background stem of 3. *)
Definition sample_lengths (path : string) : nat :=
  if String.eqb path (dubbed_audio "/data/dubbing/job_1700000000") then 5%nat else 3%nat.

(** *** Classes of calls *)

(** The calls about the alignment model. *)
Definition alignment_call (e : Event) : bool :=
  match e with
  | EvLoadAlign _ | EvAlign _ => true
  | _ => false
  end.


(** The calls of the synthesis stage to a synthesizer or to the gender
    classifier. *)
Definition synthesis_call (e : Event) : bool :=
  match e with
  | EvLoadXTTS | EvXTTS _ _ _ | EvDetectGender _ | EvEdgeTTS _ _ _ => true
  | _ => false
  end.

(** What a job in cloning mode may call from the synthesis on: no gender
    classifier, no cloud voice, and the cloning synthesizer only with the
    reference [vocals] and the language [target]. *)
Definition cloning_event (vocals target : string) (e : Event) : Prop :=
  match e with
  | EvDetectGender _ | EvEdgeTTS _ _ _ => False
  | EvXTTS _ speaker_wav language => speaker_wav = vocals /\ language = target
  | _ => True
  end.

(** What a job in fallback mode may call after the gender classifier has
    run: neither the classifier again nor the cloning synthesizer, and the
    cloud voice only with the voice [voice]. *)
Definition fallback_event (voice : string) (e : Event) : Prop :=
  match e with
  | EvDetectGender _ | EvXTTS _ _ _ | EvLoadXTTS => False
  | EvEdgeTTS _ v _ => v = voice
  | _ => True
  end.

(** The calls from the mixing on. *)
Definition closing_call (e : Event) : bool :=
  match e with
  | EvFfmpegRun _ | EvRmtree _ | EvUpload _ _ | EvPresign _ => true
  | _ => false
  end.

(** The answer of [detect_gender], which does not depend on the world. *)
Definition classified_gender (env : Env) (audio_path : string) : string :=
  match pyin env audio_path 30 50 400 with
  | Some f0 =>
    match nanmean f0 with
    | Some mean_pitch => if Qlt_bool 165 mean_pitch then "Female" else "Male"
    | None => "Male"
    end
  | None => "Male"
  end.

Definition default_voices : gmap string string :=
  voices "en-US-ChristopherNeural" "en-US-JennyNeural".

(** The voice of the table of lines 293-305 for a language and a gender. *)
Definition persona (target_lang gender : string) : option string :=
  default default_voices (edge_voices !! target_lang) !! gender.

(** The world once the cloning synthesizer is in the cache (lines 270-272,
    when the load returns). *)
Definition xtts_ready (w : World) : World :=
  match XTTS_MODEL w with
  | None => set_XTTS_MODEL (Some tt) (emit EvLoadXTTS w)
  | Some _ => w
  end.


(** [m] only adds to the trace, and every call it adds satisfies [P]. *)
Definition emits {R A} (P : Event -> Prop) (m : M R A) : Prop :=
  forall w, exists evs, trace (m w).2 = trace w ++ evs /\ Forall P evs.

(** What the claims call a well-formed job identifier: not empty, every
    character in [[A-Za-z0-9_-]]. *)
Definition job_id_wellformed (s : string) : bool :=
  negb (String.eqb s "") && forallb safe_char (list_ascii_of_string s).

Fixpoint ends_with_newline (s : string) : bool :=
  match s with
  | EmptyString => false
  | String c EmptyString => Ascii.eqb c newline
  | String _ rest => ends_with_newline rest
  end.


Definition sample_request : gmap string jval :=
  request "job_1700000000" "https://r2.example/temp/job_1700000000/video.mp4" "kn".

(** A second request, served by the same worker after [sample_request]. *)
Definition second_request : gmap string jval :=
  request "job_1700000060" "https://r2.example/temp/job_1700000060/video.mp4" "kn".

(** ** The front end (app.py) *)

(** Line 178 of [main]: the job identifier, made from [int(time.time())]. *)
Definition new_job_id (seconds : Z) : string := ("job_" ++ pretty seconds)%string.

(** ** Successive calls of the rate limiter *)

(** The environment [env] with the clock reading [t]. *)
Definition at_time (t : Q) (env : Env) : Env := {|
  now := t;
  makedirs := makedirs env;
  http_get := http_get env;
  ffmpeg_extract := ffmpeg_extract env;
  demucs := demucs env;
  demucs_dirs := demucs_dirs env;
  walk_vocals := walk_vocals env;
  load_model := load_model env;
  transcribe := transcribe env;
  load_align_model := load_align_model env;
  align := align env;
  DiarizationPipeline := DiarizationPipeline env;
  assign_word_speakers := assign_word_speakers env;
  GoogleTranslator := GoogleTranslator env;
  translate := translate env;
  load_xtts := load_xtts env;
  xtts_tts := xtts_tts env;
  pyin := pyin env;
  edge_tts := edge_tts env;
  sf_write := sf_write env;
  ffmpeg_run := ffmpeg_run env;
  upload_file := upload_file env;
  generate_presigned_url := generate_presigned_url env
|}.

(** [check_daily_limit] called for the client [cid] once per environment of
    [envs], one call after the other: the clock readings of the calls that
    were admitted, in the order of the calls. *)
Fixpoint admitted_stamps (cid : string) (envs : list Env) (w : World) : list Q :=
  match envs with
  | [] => []
  | env :: rest =>
    match @check_daily_limit bool env (JStr cid) w with
    | (Val true, w') => now env :: admitted_stamps cid rest w'
    | (_, w') => admitted_stamps cid rest w'
    end
  end.

(** Five calls within two hours, then one a day later. *)
Definition sample_calls : list Env :=
  map (fun t => at_time t env_ok) [100000; 101000; 102000; 103000; 104000; 190000]%Q.

(** ** What a computation guarantees *)

(** [m], started in a world where [I] holds, ends (with a value or an
    exception) in a world where [I] holds, or returns a response [r] in a
    world where [G r] holds. *)
Definition guarantees {R A} (I : World -> Prop) (G : R -> World -> Prop)
    (m : M R A) : Prop :=
  forall w, I w ->
    match m w with
    | (Val _, w') => I w'
    | (Ret r, w') => G r w'
    | (Exc _, w') => I w'
    end.

(** [m] never reaches its end: it returns or raises. *)
Definition never_continues {R A} (m : M R A) : Prop :=
  forall w a w', m w <> (Val a, w').

(** The error results [dub_video] returns before it creates the job
    directory. *)
Definition early_rejection (r : Response) : Prop :=
  r = RespError "Invalid job_id format. Security Block." \/
  r = RespError "Invalid URL scheme." \/
  r = RespError "Daily limit reached (3/3). Please try again in 24 hours.".

(** The messages of the error results of [dub_video]. *)
Definition error_messages : list string :=
  ["Invalid job_id format. Security Block.";
   "Invalid URL scheme.";
   "Daily limit reached (3/3). Please try again in 24 hours.";
   "Demucs failed";
   "Mixing failed"].

(** The dubbed track of a list of segments, from segment [i] on: segment
    after segment, the waveform of the segment if its translated text is not
    empty and its synthesis call [tts] returned one, nothing otherwise. *)
Fixpoint dubbed_track (tts : nat -> string -> option (list Q)) (i : nat)
    (segments : list Segment) : list Q :=
  match segments with
  | [] => []
  | seg :: rest =>
    (if no_translated_text seg then []
     else default [] (tts i (default "" (translated_text seg))))
      ++ dubbed_track tts (Datatypes.S i) rest
  end.

(** The languages the front end offers (lines 143-145 of [main]). *)
Definition target_lang_options : list string :=
  ["hi"; "kn"; "te"; "ta"; "ml"; "mr"; "en"; "es"; "fr"].

(** The helpers and the click handler of app.py. The calls that only display
    something (streamlit, progress bar) are not modelled; the state is the
    trace of the calls that act on the disk, on the bucket and on the back
    end. *)
Module App.

(** The JSON body posted to the back end (lines 215-220). *)
Record Payload : Type := mkPayload {
  p_video_url : string;
  p_target_lang : string;
  p_job_id : string;
  p_client_id : string
}.

(** The request dict the back end receives for a payload. *)
Definition to_item (p : Payload) : gmap string jval :=
  <["video_url" := JStr (p_video_url p)]>
    (<["target_lang" := JStr (p_target_lang p)]>
       (<["job_id" := JStr (p_job_id p)]>
          (<["client_id" := JStr (p_client_id p)]> ∅))).

Inductive Event : Type :=
| EvMakedirs (path : string)
| EvWriteFile (path : string)
| EvYdlDownload (url outtmpl : string)
| EvR2Upload (path key : string)
| EvR2Presign (key : string) (expires_in : Z)
| EvPost (payload : Payload)
| EvR2Delete (key : string)
| EvRemove (path : string).

(** What [requests.post] gives back: the status code and, if the body is
    JSON, the parsed object. *)
Record HttpResponse : Type := mkHttpResponse {
  status_code : Z;
  json : option (gmap string jval)
}.

Record Env : Type := mkEnv {
  getcwd : string;                                  (* os.getcwd() *)
  time : Z;                                         (* int(time.time()) at the click *)
  makedirs : string -> option unit;                 (* os.makedirs(.., exist_ok=True) *)
  write_file : string -> option unit;               (* open(.., "wb"), write *)
  ydl_download : string -> string -> option unit;   (* YoutubeDL(opts).download([url]) *)
  exists_ : string -> bool;                         (* os.path.exists *)
  getsize : string -> option Z;                     (* os.path.getsize *)
  get_r2_client : nat -> option unit;               (* boto3.client, at its n-th call *)
  open_rb : string -> option unit;                  (* open(.., "rb") *)
  upload_fileobj : string -> string -> option unit; (* r2.upload_fileobj *)
  generate_presigned_url : string -> Z -> option string;
  post : Payload -> option HttpResponse;            (* requests.post: None when it raises *)
  delete_object : string -> option unit;            (* r2.delete_object *)
  remove : string -> option unit                    (* os.remove *)
}.

Definition M (R A : Type) : Type := list Event -> Res R A * list Event.

Definition pure {R A} (a : A) : M R A := fun t => (Val a, t).
Definition return_ {R A} (r : R) : M R A := fun t => (Ret r, t).
Definition raise {R A} (e : exn) : M R A := fun t => (Exc e, t).

Definition bind {R A B} (m : M R A) (k : A -> M R B) : M R B :=
  fun t =>
    match m t with
    | (Val a, t') => k a t'
    | (Ret r, t') => (Ret r, t')
    | (Exc e, t') => (Exc e, t')
    end.

Declare Scope app_scope.
Notation "'let*' x ':=' m 'in' k" := (bind m (fun x => k))
  (at level 10, x pattern, m at level 100, k at level 200) : app_scope.
Notation "m ';;' k" := (bind m (fun _ => k))
  (at level 100, k at level 200, right associativity) : app_scope.
Local Open Scope app_scope.

Definition call {R} (e : Event) : M R unit := fun t => (Val tt, t ++ [e]).

(** An external call: it returns [a], or raises. *)
Definition external {R A} (e : Event) (origin : string) (o : option A) : M R A :=
  call e ;;
  match o with
  | Some a => pure a
  | None => raise (OtherException origin)
  end.

(** A call that leaves no mark: it returns [a], or raises. *)
Definition query {R A} (origin : string) (o : option A) : M R A :=
  match o with
  | Some a => pure a
  | None => raise (OtherException origin)
  end.

(** [try: body except Exception: handler] and the bare [except]. *)
Definition try_except {R A} (body : M R A) (handler : exn -> M R A) : M R A :=
  fun t =>
    match body t with
    | (Exc e, t') => handler e t'
    | other => other
    end.

Definition fn {R S} (body : M R R) : M S R :=
  fun t =>
    match body t with
    | (Val r, t') => (Val r, t')
    | (Ret r, t') => (Val r, t')
    | (Exc e, t') => (Exc e, t')
    end.

Fixpoint ends_with_slash (s : string) : bool :=
  match s with
  | EmptyString => false
  | String c EmptyString => Ascii.eqb c "/"
  | String _ rest => ends_with_slash rest
  end.

(** [os.path.join(a, b)] for a relative [b]. *)
Definition path_join (a b : string) : string :=
  if String.eqb a "" then b
  else if ends_with_slash a then (a ++ b)%string
  else (a ++ "/" ++ b)%string.

(** download_video_locally (lines 40-79). *)
Definition download_video_locally {S} (env : Env) (youtube_url : string)
  : M S (option string) :=
  fn (
    let download_dir := path_join (getcwd env) "downloads" in
    external (EvMakedirs download_dir) "os.makedirs" (makedirs env download_dir) ;;
    let video_path := path_join download_dir "video.mp4" in
    try_except
      (external (EvYdlDownload youtube_url video_path) "yt_dlp"
                (ydl_download env youtube_url video_path) ;;
       (if negb (exists_ env video_path)
        then raise (OtherException "Download failed") else pure tt) ;;
       let* size := query "os.path.getsize" (getsize env video_path) in
       (if (size <? 1024 * 100)%Z
        then raise (OtherException "Downloaded file too small") else pure tt) ;;
       return_ (Some video_path))
      (fun _ => return_ None)).

(** upload_to_r2 (lines 81-121): the locator and the key, or (None, None). *)
Definition upload_to_r2 {S} (env : Env) (video_path job_id : string)
  : M S (option string * option string) :=
  fn (
    try_except
      (let* file_size := query "os.path.getsize" (getsize env video_path) in
       let* r2 := query "boto3" (get_r2_client env 0) in
       let object_key := ("temp/" ++ job_id ++ "/video.mp4")%string in
       query "open" (open_rb env video_path) ;;
       external (EvR2Upload video_path object_key) "boto3"
                (upload_fileobj env video_path object_key) ;;
       let* url := external (EvR2Presign object_key 86400) "boto3"
                            (generate_presigned_url env object_key 86400) in
       return_ (Some url, Some object_key))
      (fun _ => return_ (None, None))).

(** [result.get("status") == "success"]. *)
Definition is_success (result : gmap string jval) : bool :=
  bool_decide (result !! "status" = Some (JStr "success")).

(** The body of [if st.button(...)] in [main] (lines 174-263), for the
    inputs of the page: the uploaded file if there is one, the text of the
    URL field, the selected language and the client identifier of the
    session. *)
Definition on_click (env : Env) (uploaded_file : option unit)
    (youtube_url target_lang client_id : string) : M unit unit :=
  fn (
    let job_id := new_job_id (time env) in
    let* video_path :=
      match uploaded_file with
      | Some _ =>
        let download_dir := path_join (getcwd env) "downloads" in
        external (EvMakedirs download_dir) "os.makedirs" (makedirs env download_dir) ;;
        let video_path := path_join download_dir (job_id ++ ".mp4")%string in
        external (EvWriteFile video_path) "open" (write_file env video_path) ;;
        pure (Some video_path)
      | None =>
        if negb (String.eqb youtube_url "")
        then download_video_locally env youtube_url
        else return_ tt
      end in
    let* video_path := match video_path with
                       | Some p => if String.eqb p "" then return_ tt else pure p
                       | None => return_ tt
                       end in
    let* (r2_url, object_key) := upload_to_r2 env video_path job_id in
    let* r2_url := match r2_url with
                   | Some u => if String.eqb u "" then return_ tt else pure u
                   | None => return_ tt
                   end in
    try_except
      (let payload := mkPayload r2_url target_lang job_id client_id in
       let* response := external (EvPost payload) "requests" (post env payload) in
       if (status_code response =? 200)%Z then
         let* result := query "json" (json response) in
         if is_success result then
           try_except
             (query "boto3" (get_r2_client env 1) ;;
              let* key := query "boto3" object_key in
              external (EvR2Delete key) "boto3" (delete_object env key))
             (fun _ => pure tt)
         else pure tt
       else pure tt)
      (fun _ => pure tt) ;;
    try_except
      (external (EvRemove video_path) "os.remove" (remove env video_path))
      (fun _ => pure tt) ;;
    return_ tt).

(** The calls that change something outside the page: the POST, the removal
    of the temporary object, the removal of the local file. *)
Definition closing (e : Event) : bool :=
  match e with
  | EvPost _ | EvR2Delete _ | EvRemove _ => true
  | _ => false
  end.

(** The back end answered 200 with a JSON object whose status is
    "success". *)
Definition answered_success (env : Env) (p : Payload) : bool :=
  match post env p with
  | Some response =>
    (status_code response =? 200)%Z &&
    match json response with
    | Some result => is_success result
    | None => false
    end
  | None => false
  end.

(** A page where the video is found, large enough, and every call works;
    the back end answers [response]. *)
Definition sample_env (size : Z) (response : option HttpResponse) : Env := {|
  getcwd := "/app";
  time := 1700000000;
  makedirs := fun _ => Some tt;
  write_file := fun _ => Some tt;
  ydl_download := fun _ _ => Some tt;
  exists_ := fun _ => true;
  getsize := fun _ => Some size;
  get_r2_client := fun _ => Some tt;
  open_rb := fun _ => Some tt;
  upload_fileobj := fun _ _ => Some tt;
  generate_presigned_url := fun key _ => Some ("https://r2.example/" ++ key)%string;
  post := fun _ => response;
  delete_object := fun _ => Some tt;
  remove := fun _ => Some tt
|}.

End App.

(** Lines 188-355 of [dub_video]: what an admitted request runs. *)
Definition dub_after_admission (env : Env) (job_id video_url : string)
    (target_lang : jval) : M Response Response :=
  let job_dir := (BASE_DIR ++ "/" ++ job_id)%string in
  makedirs_ env job_dir ;;
  let video_path := (job_dir ++ "/video.mp4")%string in
  let audio_path := (job_dir ++ "/audio.wav")%string in
  let dubbed_audio := (job_dir ++ "/dubbed.wav")%string in
  let final_video := (job_dir ++ "/final_dubbed.mp4")%string in
  download_video env video_url ;;
  extract_audio env video_path audio_path ;;
  let* (vocals, bg) := separate_vocals env job_dir audio_path in
  let* segments := transcription env vocals in
  let* (target_lang, segments) := translation env target_lang segments in
  synthesis env job_dir vocals dubbed_audio target_lang segments ;;
  mixing env job_dir video_path dubbed_audio bg final_video ;;
  let* url := upload env job_id final_video in
  rmtree job_dir ;;
  return_ (RespSuccess url).

(** ** The notions of the specification, stated apart from the code *)

(** A stamp [t] is less than 24 hours old at [now], by the order of the
    rationals. *)
Definition within_a_day (now t : Q) : bool :=
  if Qlt_le_dec (now - t) 86400 then true else false.

(** The stamps of a stored record that count against the quota at [now]. *)
Definition recent_stamps (now : Q) (stored : list Q) : list Q :=
  List.filter (within_a_day now) stored.




(** What a job has to say, from segment [i] on: for each segment its
    translation, or its source text when the translation call raised; the
    segments left with an empty text are passed over. Each text goes with
    the index of its segment. *)
Fixpoint texts_to_speak (tr : nat -> string -> option string) (i : nat)
    (segments : list Segment) : list (nat * string) :=
  match segments with
  | [] => []
  | seg :: rest =>
    let said := match tr i (text seg) with
                | Some s => s
                | None => text seg
                end in
    (if String.eqb said "" then [] else [(i, said)])
      ++ texts_to_speak tr (Datatypes.S i) rest
  end.

(** The calls that load a model of the cache. *)
Definition loads_recognizer (e : Event) : bool :=
  match e with EvLoadWhisper => true | _ => false end.

Definition loads_alignment (e : Event) : bool :=
  match e with EvLoadAlign _ => true | _ => false end.

Definition loads_diarizer (e : Event) : bool :=
  match e with EvLoadDiarizer => true | _ => false end.

Definition loads_synthesizer (e : Event) : bool :=
  match e with EvLoadXTTS => true | _ => false end.

(** The trace of [w] is [before] followed by calls none of which is one of
    [loads]. *)
Definition no_load_since (loads : Event -> bool) (before : list Event) (w : World) : Prop :=
  exists evs, trace w = before ++ evs /\ Forall (fun e => loads e = false) evs.

(** * Properties *)

(** [rmtree] leaves no directory at its path. *)
Lemma not_in_removed_tree (path : string) (X : gset string) :
  path ∉ filter (fun d => in_tree path d = false) X.
Proof.
  intros H. apply elem_of_filter in H as [H _].
  unfold in_tree in H. rewrite String.eqb_refl in H. discriminate.
Qed.

Section RateLimiter.

Context {S : Type}.
Variable env : Env.

Lemma Qlt_bool_true x y : Qlt_bool x y = true <-> (x < y)%Q.
Proof.
  unfold Qlt_bool. rewrite negb_true_iff.
  destruct (Qle_bool y x) eqn:E.
  - apply Qle_bool_iff in E. split; [discriminate | intros H; exfalso; lra].
  - split; [intros _ | reflexivity].
    destruct (Qlt_le_dec x y) as [|Hle]; [assumption |].
    apply Qle_bool_iff in Hle. congruence.
Qed.

Lemma Qlt_bool_false x y : Qlt_bool x y = false <-> (y <= x)%Q.
Proof.
  unfold Qlt_bool. rewrite negb_false_iff. apply Qle_bool_iff.
Qed.

Lemma check_daily_limit_unmetered client_id w :
  unmetered client_id ->
  @check_daily_limit S env client_id w = (Val true, w).
Proof. intros [-> | [-> | ->]]; reflexivity. Qed.

Lemma check_daily_limit_denied cid w :
  cid <> "" -> cid <> "anonymous" ->
  (3 <= length (valid_at (now env) (rate_get cid w)))%nat ->
  @check_daily_limit S env (JStr cid) w = (Val false, emit (EvRateGet cid) w).
Proof.
  intros H1 H2 H3. unfold check_daily_limit, fn, bind. cbn -[Nat.leb].
  rewrite !bool_decide_eq_false_2 by assumption. cbn -[Nat.leb].
  fold (valid_at (now env) (rate_get cid w)).
  apply Nat.leb_le in H3. rewrite H3. reflexivity.
Qed.

Lemma check_daily_limit_admitted cid w :
  cid <> "" -> cid <> "anonymous" ->
  (length (valid_at (now env) (rate_get cid w)) < 3)%nat ->
  let stamps := valid_at (now env) (rate_get cid w) ++ [now env] in
  @check_daily_limit S env (JStr cid) w =
    (Val true,
     set_rate (<[cid := stamps]> (rate_limiter w))
              (emit (EvRateSet cid stamps) (emit (EvRateGet cid) w))).
Proof.
  intros H1 H2 H3. unfold check_daily_limit, fn, bind. cbn -[Nat.leb].
  rewrite !bool_decide_eq_false_2 by assumption. cbn -[Nat.leb].
  fold (valid_at (now env) (rate_get cid w)).
  apply Nat.leb_gt in H3. rewrite H3. reflexivity.
Qed.

End RateLimiter.

Lemma filter_drops_one {A} (f : A -> bool) (l : list A) (x : A) :
  In x l -> f x = false -> (length (List.filter f l) < length l)%nat.
Proof.
  induction l as [|y l IH]; simpl; [tauto |].
  intros [-> | Hin] Hx.
  - rewrite Hx. pose proof (List.filter_length_le f l). lia.
  - specialize (IH Hin Hx). destruct (f y); simpl; lia.
Qed.

Lemma valid_at_later (now later : Q) (ts : list Q) :
  (now <= later)%Q ->
  valid_at later (valid_at now ts) = valid_at later ts.
Proof.
  intros Hle. unfold valid_at.
  induction ts as [|t ts IH]; simpl; [reflexivity |].
  destruct (Qlt_bool (now - t) 86400) eqn:E1; simpl; rewrite IH.
  - reflexivity.
  - destruct (Qlt_bool (later - t) 86400) eqn:E2; [| reflexivity].
    apply Qlt_bool_true in E2. apply Qlt_bool_false in E1. lra.
Qed.

Lemma valid_at_In (now t : Q) (ts : list Q) :
  In t (valid_at now ts) -> In t ts /\ (now - t < 86400)%Q.
Proof.
  unfold valid_at. rewrite List.filter_In, Qlt_bool_true. tauto.
Qed.

Lemma rate_get_emit cid e w : rate_get cid (emit e w) = rate_get cid w.
Proof. reflexivity. Qed.

Lemma recent_stamps_valid_at (now : Q) (stored : list Q) :
  recent_stamps now stored = valid_at now stored.
Proof.
  unfold recent_stamps, valid_at. apply List.filter_ext. intros t.
  unfold within_a_day. destruct (Qlt_le_dec (now - t) 86400) as [H | H]; symmetry.
  - apply Qlt_bool_true, H.
  - apply Qlt_bool_false, H.
Qed.

Lemma recent_stamps_In (now t : Q) (stored : list Q) :
  In t (recent_stamps now stored) <-> In t stored /\ (now - t < 86400)%Q.
Proof.
  unfold recent_stamps, within_a_day. rewrite List.filter_In.
  destruct (Qlt_le_dec (now - t) 86400) as [H | H].
  - tauto.
  - split; [intros [_ Hf]; discriminate | intros [_ Hlt]; exfalso; lra].
Qed.

(** C2. For a client identifier that is neither empty nor "anonymous",
    [check_daily_limit] returns (it does not raise). With [stored] the
    record the store holds for the client (no stamp if it holds none) and
    [valid] the stored stamps [t] with [now - t < 86400], in their order, it
    admits exactly when [valid] has fewer than 3 stamps. On admission the
    record of the client becomes [valid] followed by [now]; on refusal the
    store is left as it was. After a refusal with exactly 3 valid stamps, a
    request made once any of them (the oldest is the first to get there) is
    86400 seconds old or more is admitted. *)
Theorem check_daily_limit_rolling_window
    (S : Type) (env : Env) (cid : string) (w : World) :
  cid <> "" -> cid <> "anonymous" ->
  let stored := match rate_limiter w !! cid with
                | Some stamps => stamps
                | None => []
                end in
  let valid := recent_stamps (now env) stored in
  (forall t, In t valid <-> In t stored /\ (now env - t < 86400)%Q) /\
  exists admitted w',
    @check_daily_limit S env (JStr cid) w = (Val admitted, w') /\
    (admitted = true <-> (length valid < 3)%nat) /\
    (admitted = true ->
       rate_limiter w' = <[cid := valid ++ [now env]]> (rate_limiter w)) /\
    (admitted = false -> rate_limiter w' = rate_limiter w) /\
    (forall (later : Env) (t : Q),
       length valid = 3%nat -> In t valid -> (86400 <= now later - t)%Q ->
       admitted = false /\
       exists w'', @check_daily_limit S later (JStr cid) w' = (Val true, w'')).
Proof.
  intros H1 H2 stored valid.
  split; [intros t; apply recent_stamps_In |].
  assert (Hvalid : valid = valid_at (now env) (rate_get cid w)).
  { unfold valid, stored, rate_get. rewrite recent_stamps_valid_at.
    destruct (rate_limiter w !! cid); reflexivity. }
  clearbody valid. clear stored. subst valid.
  set (valid := valid_at (now env) (rate_get cid w)).
  destruct (Nat.lt_ge_cases (length valid) 3) as [Hlt | Hge].
  - eexists true, _. split; [apply check_daily_limit_admitted; assumption |].
    split; [tauto |]. split; [reflexivity |]. split; [discriminate |].
    intros later t Hlen. lia.
  - eexists false, _. split; [apply check_daily_limit_denied; assumption |].
    split; [split; [discriminate | lia] |]. split; [discriminate |].
    split; [reflexivity |].
    intros later t Hlen Hin Hold. split; [reflexivity |].
    eexists. apply check_daily_limit_admitted; try assumption.
    rewrite rate_get_emit.
    destruct (valid_at_In _ _ _ Hin) as [_ Hfresh].
    rewrite <- (valid_at_later (now env) (now later)) by lra.
    fold valid. rewrite <- Hlen.
    apply (filter_drops_one _ valid t Hin).
    apply Qlt_bool_false. exact Hold.
Qed.

(** C3, as stated, fails: a request that omits [client_id] gets the
    identifier "unknown_user", which is metered; with three recent stamps
    under it the request is refused. *)
Lemma omitted_client_id_is_metered :
  sample_request !! "client_id" = None /\
  (dub_video env_ok sample_request world_used).1 =
    Returned (RespError "Daily limit reached (3/3). Please try again in 24 hours.").
Proof. split; vm_compute; reflexivity. Qed.

(** C3, amended. A client identifier that is None, empty or "anonymous" is
    admitted whatever the store holds, and the store is not touched. A
    request that omits [client_id] is handled as the request with
    [client_id] "unknown_user". *)
Theorem unmetered_clients_always_admitted
    (S : Type) (env : Env) (client_id : jval) (item : gmap string jval) (w : World) :
  unmetered client_id ->
  item !! "client_id" = None ->
  @check_daily_limit S env client_id w = (Val true, w) /\
  dub_video env item w = dub_video env (<["client_id" := JStr "unknown_user"]> item) w.
Proof.
  intros Hc Hnone. split; [apply check_daily_limit_unmetered, Hc |].
  unfold dub_video, dub_video_body, item_index, item_get.
  rewrite (lookup_insert_ne item "client_id" "job_id") by discriminate.
  rewrite (lookup_insert_ne item "client_id" "video_url") by discriminate.
  rewrite (lookup_insert_ne item "client_id" "target_lang") by discriminate.
  rewrite lookup_insert_eq, Hnone. reflexivity.
Qed.

Lemma unmetered_clients_always_admitted_witness :
  unmetered (JStr "anonymous") /\
  sample_request !! "client_id" = None /\
  @check_daily_limit Response env_ok (JStr "anonymous") world_used = (Val true, world_used) /\
  dub_video env_ok sample_request world_used =
    dub_video env_ok (<["client_id" := JStr "unknown_user"]> sample_request) world_used.
Proof.
  assert (H1 : unmetered (JStr "anonymous")) by (right; right; reflexivity).
  assert (H2 : sample_request !! "client_id" = None) by (vm_compute; reflexivity).
  split; [exact H1 |]. split; [exact H2 |].
  exact (unmetered_clients_always_admitted Response env_ok _ _ world_used H1 H2).
Defined.

Lemma check_daily_limit_rolling_window_witness :
  "alice" <> "" /\ "alice" <> "anonymous" /\
  rate_limiter world_used !! "alice" = Some [20000; 99500; 99900]%Q /\
  exists w' w'',
    @check_daily_limit Response env_ok (JStr "alice") world_used = (Val false, w') /\
    rate_limiter w' = rate_limiter world_used /\
    @check_daily_limit Response (at_time 106400 env_ok) (JStr "alice") w' = (Val true, w'').
Proof.
  assert (H1 : "alice" <> "") by discriminate.
  assert (H2 : "alice" <> "anonymous") by discriminate.
  split; [exact H1 |]. split; [exact H2 |]. split; [vm_compute; reflexivity |].
  destruct (check_daily_limit_rolling_window Response env_ok "alice" world_used H1 H2)
    as (_ & admitted & w' & Hrun & _ & _ & Hrefused & Hlater).
  destruct (Hlater (at_time 106400 env_ok) 20000%Q) as (-> & w'' & Hnext).
  - vm_compute. reflexivity.
  - vm_compute. left. reflexivity.
  - vm_compute. discriminate.
  - exists w', w''. split; [exact Hrun |]. split; [apply Hrefused; reflexivity | exact Hnext].
Defined.

Section Validation.

Lemma match_rest_shape (s : string) :
  match_rest s = true ->
  forallb safe_char (list_ascii_of_string s) = true \/ ends_with_newline s = true.
Proof.
  induction s as [|c rest IH]; simpl; [auto |].
  destruct (safe_char c) eqn:Hc; simpl.
  - intros H. destruct (IH H) as [Hall | Hnl]; [left; exact Hall | right].
    destruct rest; [discriminate | exact Hnl].
  - rewrite andb_true_iff. intros [Hnl Hend].
    apply String.eqb_eq in Hend. subst rest. right. exact Hnl.
Qed.

Lemma re_match_job_id_shape (s : string) :
  re_match_job_id s = true ->
  job_id_wellformed s = true \/ ends_with_newline s = true.
Proof.
  destruct s as [|c rest]; [discriminate |].
  unfold re_match_job_id, job_id_wellformed. simpl.
  rewrite andb_true_iff. intros [Hc Hrest]. rewrite Hc. simpl.
  destruct (match_rest_shape rest Hrest) as [Hall | Hnl]; [left; exact Hall | right].
  destruct rest; [discriminate | exact Hnl].
Qed.





Lemma security_checks_pass (j u : string) (w : World) :
  re_match_job_id j = true ->
  String.prefix "http://" u || String.prefix "https://" u = true ->
  security_checks (JStr j) (JStr u) w = (Val tt, w).
Proof.
  intros Hj Hu. unfold security_checks, bind, pure. rewrite Hj. simpl.
  rewrite Hu. reflexivity.
Qed.


End Validation.




Section GenderClassifier.

Context {S : Type}.
Variable env : Env.

Lemma detect_gender_run (path : string) (w : World) :
  @detect_gender S env path w =
    (Val (classified_gender env path), emit (EvDetectGender path) w).
Proof.
  unfold detect_gender, classified_gender, fn, try_except, bind, call. simpl.
  destruct (pyin env path 30 50 400) as [f0 |]; simpl; [| reflexivity].
  destruct (nanmean f0); reflexivity.
Qed.

End GenderClassifier.





(** ** The pipeline, stage by stage *)

(** Case analysis on the innermost stage whose outcome decides a goal. *)
Ltac destruct_stage :=
  match goal with
  | |- context [match ?x with pair _ _ => _ end] =>
    lazymatch x with
    | context [match _ with pair _ _ => _ end] => fail
    | _ => destruct x as [[[? ?]|?|?] ?] || destruct x as [[?|?|?] ?]
    end
  end.

Lemma dub_video_body_split (env : Env) (item : gmap string jval) (w : World) :
  dub_video_body env item w =
    bind (acquisition env item) (dub_from_translation env) w.
Proof.
  unfold dub_video_body, acquisition, dub_from_translation, dub_from_synthesis,
    dub_from_mixing, dub_from_upload, video_path, audio_path, dubbed_audio,
    final_video, bind.
  repeat (destruct_stage; simpl; try reflexivity).
Qed.

Lemma emit_emit_all (e : Event) (evs : list Event) (w : World) :
  emit e (emit_all evs w) = emit_all (evs ++ [e]) w.
Proof. unfold emit, emit_all. simpl. rewrite <- app_assoc. reflexivity. Qed.

Lemma emit_all_emit (e : Event) (evs : list Event) (w : World) :
  emit_all evs (emit e w) = emit_all (e :: evs) w.
Proof. unfold emit, emit_all. simpl. rewrite <- app_assoc. reflexivity. Qed.

Lemma emit_all_emit_all (evs1 evs2 : list Event) (w : World) :
  emit_all evs2 (emit_all evs1 w) = emit_all (evs1 ++ evs2) w.
Proof. unfold emit_all. simpl. rewrite <- app_assoc. reflexivity. Qed.

Lemma emit_as_emit_all (e : Event) (w : World) : emit e w = emit_all [e] w.
Proof. reflexivity. Qed.

Lemma emit_all_nil (w : World) : emit_all [] w = w.
Proof. destruct w. unfold emit_all. simpl. rewrite app_nil_r. reflexivity. Qed.

Section Translation.

Variable env : Env.

Lemma translate_loop_run (target : string) (segs : list Segment) (i : nat) (w : World) :
  translate_loop env target i segs w =
    (Val (translated_segments (translate env) i segs),
     emit_all (map (fun seg => EvTranslate target (text seg)) segs) w).
Proof.
  revert i w. induction segs as [|seg rest IH]; intros i w.
  - simpl. rewrite emit_all_nil. reflexivity.
  - simpl. unfold bind at 1. unfold try_except, external, bind at 1 2, call.
    destruct (translate env i (text seg)) as [t |]; simpl;
      unfold bind at 1; rewrite IH, emit_all_emit; reflexivity.
Qed.

Lemma translation_run (t : string) (segs : list Segment) (w : World) :
  GoogleTranslator env t = Some tt ->
  translation env (JStr t) segs w =
    (Val (t, translated_segments (translate env) 0 segs),
     emit_all (EvTranslatorInit (JStr t)
                 :: map (fun seg => EvTranslate t (text seg)) segs) w).
Proof.
  intros Hok. unfold translation, bind, call. rewrite Hok. simpl.
  rewrite translate_loop_run, emit_all_emit. reflexivity.
Qed.

Lemma translated_segments_length tr i (segs : list Segment) :
  length (translated_segments tr i segs) = length segs.
Proof. revert i. induction segs; intros i; simpl; [| rewrite IHsegs]; reflexivity. Qed.

(** Only the translated text of a segment changes. *)
Lemma translated_segments_fields tr i (segs : list Segment) :
  map text (translated_segments tr i segs) = map text segs /\
  map seg_start (translated_segments tr i segs) = map seg_start segs /\
  map seg_end (translated_segments tr i segs) = map seg_end segs /\
  map speaker (translated_segments tr i segs) = map speaker segs.
Proof.
  revert i. induction segs as [|seg rest IH]; intros i; simpl; [auto |].
  destruct (IH (Datatypes.S i)) as (-> & -> & -> & ->). auto.
Qed.

Lemma translated_segments_lookup tr i (segs : list Segment) (k : nat) (seg : Segment) :
  segs !! k = Some seg ->
  translated_segments tr i segs !! k =
    Some (set_translated_text seg (default (text seg) (tr (i + k)%nat (text seg)))).
Proof.
  revert i k. induction segs as [|s rest IH]; intros i k; [discriminate |].
  destruct k as [|k]; simpl.
  - intros [= ->]. rewrite Nat.add_0_r. reflexivity.
  - intros H. rewrite (IH (Datatypes.S i) k H).
    replace (Datatypes.S i + k)%nat with (i + Datatypes.S k)%nat by lia. reflexivity.
Qed.

End Translation.

(** C6. Once the translator exists, the translation stage returns whatever
    the calls on the segments do: it hands to the synthesis, which the job
    enters next, a list with as many segments, in the same order, each with
    the source text, times and speaker it had. The translated text of a
    segment whose translation raised is its source text; that of a segment
    whose translation returned is what the call returned. *)
Theorem translation_failure_keeps_segment
    (env : Env) (item : gmap string jval) (w w1 : World) (job : Job) (t : string) :
  acquisition env item w = (Val job, w1) ->
  target_lang job = JStr t ->
  GoogleTranslator env t = Some tt ->
  exists translated w2,
    translation env (target_lang job) (segments job) w1 = (Val (t, translated), w2) /\
    dub_video env item w =
      handle (dub_from_synthesis env (job_id job) (job_dir job) (vocals job) (bg job)
                                 t translated) w2 /\
    length translated = length (segments job) /\
    map text translated = map text (segments job) /\
    map seg_start translated = map seg_start (segments job) /\
    map seg_end translated = map seg_end (segments job) /\
    map speaker translated = map speaker (segments job) /\
    (forall k seg,
       segments job !! k = Some seg ->
       exists seg',
         translated !! k = Some seg' /\
         text seg' = text seg /\
         seg_start seg' = seg_start seg /\
         seg_end seg' = seg_end seg /\
         speaker seg' = speaker seg /\
         (translate env k (text seg) = None ->
          translated_text seg' = Some (text seg)) /\
         (forall s, translate env k (text seg) = Some s ->
                    translated_text seg' = Some s)).
Proof.
  intros Hacq Ht Hok.
  exists (translated_segments (translate env) 0 (segments job)). eexists.
  rewrite Ht. split; [apply translation_run, Hok |].
  split.
  { unfold dub_video, handle. rewrite dub_video_body_split.
    unfold bind at 1. rewrite Hacq.
    unfold dub_from_translation, bind at 1. rewrite Ht, (translation_run _ _ _ _ Hok).
    reflexivity. }
  split; [apply translated_segments_length |].
  destruct (translated_segments_fields (translate env) 0 (segments job))
    as (Htext & Hstart & Hend & Hspeaker).
  do 4 (split; [assumption |]).
  intros k seg Hk. eexists.
  split; [apply (translated_segments_lookup _ _ _ _ _ Hk) |].
  simpl. do 4 (split; [reflexivity |]).
  split; [intros -> | intros s ->]; reflexivity.
Qed.

Lemma translation_failure_keeps_segment_witness :
  acquisition env_ok sample_request world0 =
    (Val sample_job, (acquisition env_ok sample_request world0).2) /\
  target_lang sample_job = JStr "kn" /\
  GoogleTranslator env_ok "kn" = Some tt /\
  translate env_ok 0 "hello" = None /\
  translate env_ok 1 "world" = Some "tr:world" /\
  exists translated w2,
    translation env_ok (JStr "kn") [seg_hello; seg_world]
                (acquisition env_ok sample_request world0).2
      = (Val ("kn", translated), w2) /\
    translated_text <$> translated !! 0%nat = Some (Some "hello") /\
    translated_text <$> translated !! 1%nat = Some (Some "tr:world").
Proof.
  assert (H1 : acquisition env_ok sample_request world0 =
               (Val sample_job, (acquisition env_ok sample_request world0).2))
    by (vm_compute; reflexivity).
  assert (H2 : target_lang sample_job = JStr "kn") by reflexivity.
  assert (H3 : GoogleTranslator env_ok "kn" = Some tt) by reflexivity.
  split; [exact H1 |]. split; [exact H2 |]. split; [exact H3 |].
  split; [reflexivity |]. split; [reflexivity |].
  destruct (translation_failure_keeps_segment env_ok _ world0 _ sample_job "kn" H1 H2 H3)
    as (translated & w2 & Hrun & _ & _ & _ & _ & _ & _ & Hseg).
  exists translated, w2. split; [exact Hrun |].
  destruct (Hseg 0%nat seg_hello eq_refl) as (s0 & -> & _ & _ & _ & _ & Hfail & _).
  destruct (Hseg 1%nat seg_world eq_refl) as (s1 & -> & _ & _ & _ & _ & _ & Hdone).
  split; simpl; f_equal; [apply Hfail | apply Hdone]; reflexivity.
Defined.

Section SynthesisLoops.

Variable env : Env.

Lemma xtts_loop_run (vocals target : string) (segs : list Segment) (i : nat)
    (combined : list Q) (w : World) :
  xtts_loop env vocals target i segs combined w =
    (Val (combined ++ waveforms (xtts_tts env) (speakable i segs)),
     emit_all (map (fun c => EvXTTS c.2 vocals target) (speakable i segs)) w).
Proof.
  revert i combined w. induction segs as [|seg rest IH]; intros i combined w.
  - simpl. unfold waveforms. simpl. rewrite app_nil_r, emit_all_nil. reflexivity.
  - simpl. destruct (no_translated_text seg); [apply IH |].
    unfold bind at 1. unfold try_except, external, bind at 1 2, call.
    unfold waveforms. simpl.
    destruct (xtts_tts env i (default "" (translated_text seg))) as [wav |]; simpl;
      rewrite IH, emit_all_emit; unfold waveforms.
    + rewrite <- app_assoc. reflexivity.
    + reflexivity.
Qed.

Lemma edge_loop_run (job_dir voice : string) (segs : list Segment) (i : nat)
    (combined : list Q) (w : World) :
  edge_loop env job_dir voice i segs combined w =
    (Val (combined ++
          waveforms (fun i t => edge_tts env i t voice) (speakable i segs)),
     emit_all (map (fun c => EvEdgeTTS c.2 voice (temp_seg_file job_dir c.1))
                   (speakable i segs)) w).
Proof.
  revert i combined w. induction segs as [|seg rest IH]; intros i combined w.
  - simpl. unfold waveforms. simpl. rewrite app_nil_r, emit_all_nil. reflexivity.
  - simpl. destruct (no_translated_text seg); [apply IH |].
    unfold bind at 1. unfold try_except, external, bind at 1 2, call.
    unfold waveforms. simpl.
    destruct (edge_tts env i (default "" (translated_text seg)) voice) as [wav |]; simpl;
      rewrite IH, emit_all_emit; unfold waveforms.
    + rewrite <- app_assoc. reflexivity.
    + reflexivity.
Qed.

End SynthesisLoops.

(** ** The calls a computation makes *)

Section Emits.

Context {R : Type}.
Variable P : Event -> Prop.

Lemma emits_pure {A} (a : A) : emits P (@pure R A a).
Proof. intros w. exists []. simpl. rewrite app_nil_r. auto. Qed.

Lemma emits_return {A} (r : R) : emits P (@return_ R A r).
Proof. intros w. exists []. simpl. rewrite app_nil_r. auto. Qed.

Lemma emits_raise {A} (e : exn) : emits P (@raise R A e).
Proof. intros w. exists []. simpl. rewrite app_nil_r. auto. Qed.

Lemma emits_get_world : emits P (@get_world R).
Proof. intros w. exists []. simpl. rewrite app_nil_r. auto. Qed.

Lemma emits_call (e : Event) : P e -> emits P (@call R e).
Proof. intros He w. exists [e]. simpl. auto. Qed.

Lemma emits_modify (f : World -> World) :
  (forall w, trace (f w) = trace w) -> emits P (@modify R f).
Proof. intros Hf w. exists []. simpl. rewrite Hf, app_nil_r. auto. Qed.

Lemma emits_bind {A B} (m : M R A) (k : A -> M R B) :
  emits P m -> (forall a, emits P (k a)) -> emits P (bind m k).
Proof.
  intros Hm Hk w. unfold bind. destruct (Hm w) as (evs1 & Ht1 & HP1).
  destruct (m w) as [[a | r | e] w1]; simpl in *; eauto.
  destruct (Hk a w1) as (evs2 & Ht2 & HP2).
  exists (evs1 ++ evs2). rewrite Ht2, Ht1, app_assoc. split; [reflexivity |].
  apply Forall_app; auto.
Qed.

Lemma emits_try_except {A} (body : M R A) (caught : exn -> bool) (handler : exn -> M R A) :
  emits P body -> (forall e, emits P (handler e)) ->
  emits P (try_except body caught handler).
Proof.
  intros Hm Hk w. unfold try_except. destruct (Hm w) as (evs1 & Ht1 & HP1).
  destruct (body w) as [[a | r | e] w1]; simpl in *; eauto.
  destruct (caught e); simpl; eauto.
  destruct (Hk e w1) as (evs2 & Ht2 & HP2).
  exists (evs1 ++ evs2). rewrite Ht2, Ht1, app_assoc. split; [reflexivity |].
  apply Forall_app; auto.
Qed.

Lemma emits_external {A} (e : Event) (origin : string) (o : option A) :
  P e -> emits P (@external R A e origin o).
Proof.
  intros He. unfold external. apply emits_bind; [apply emits_call, He |].
  intros _. destruct o; [apply emits_pure | apply emits_raise].
Qed.

End Emits.

Lemma emits_fn {R S} (P : Event -> Prop) (body : M R R) :
  emits P body -> emits P (@fn R S body).
Proof.
  intros Hm w. unfold fn. destruct (Hm w) as (evs & Ht & HP).
  destruct (body w) as [[a | r | e] w1]; simpl in *; eauto.
Qed.

Lemma emits_weaken {R A} (P Q : Event -> Prop) (m : M R A) :
  (forall e, P e -> Q e) -> emits P m -> emits Q m.
Proof.
  intros HPQ Hm w. destruct (Hm w) as (evs & Ht & HP).
  exists evs. split; [exact Ht |]. eapply Forall_impl; eauto.
Qed.

(** One step of the analysis of the calls of a computation. *)
Ltac emits_step :=
  lazymatch goal with
  | |- emits _ (bind _ _) => apply emits_bind; [| intros ?]
  | |- emits _ (pure _) => apply emits_pure
  | |- emits _ (return_ _) => apply emits_return
  | |- emits _ (raise _) => apply emits_raise
  | |- emits _ get_world => apply emits_get_world
  | |- emits _ (call _) => apply emits_call
  | |- emits _ (external _ _ _) => apply emits_external
  | |- emits _ (modify _) => apply emits_modify; intros ?; reflexivity
  | |- emits _ (try_except _ _ _) => apply emits_try_except; [| intros ?]
  | |- emits _ (fn _) => apply emits_fn
  | |- emits _ (match ?x with _ => _ end) => destruct x
  | |- emits _ (if ?b then _ else _) => destruct b
  end.

Section StageCalls.

Variable env : Env.

Lemma acquisition_calls (item : gmap string jval) :
  emits (fun e => synthesis_call e = false) (acquisition env item).
Proof.
  unfold acquisition, item_index, security_checks, check_daily_limit, makedirs_,
    download_video, extract_audio, separate_vocals, rmtree, transcription.
  repeat (emits_step; try reflexivity).
Qed.

Lemma dub_from_mixing_calls (P : Event -> Prop) (job_id job_dir bg : string) :
  (forall e, closing_call e = true -> P e) ->
  emits P (dub_from_mixing env job_id job_dir bg).
Proof.
  intros HP.
  unfold dub_from_mixing, dub_from_upload, mixing, upload, rmtree.
  repeat (emits_step; try (apply HP; reflexivity)).
Qed.

End StageCalls.

Section Synthesis.

Variable env : Env.

Lemma xtts_loop_calls (vocals target : string) (segs : list Segment) (i : nat)
    (combined : list Q) :
  emits (cloning_event vocals target) (xtts_loop env vocals target i segs combined).
Proof.
  intros w. rewrite xtts_loop_run. eexists. split; [reflexivity |].
  apply Forall_map, Forall_forall. intros c _. simpl. auto.
Qed.

Lemma edge_loop_calls (job_dir voice : string) (segs : list Segment) (i : nat)
    (combined : list Q) :
  emits (fallback_event voice) (edge_loop env job_dir voice i segs combined).
Proof.
  intros w. rewrite edge_loop_run. eexists. split; [reflexivity |].
  apply Forall_map, Forall_forall. intros c _. reflexivity.
Qed.

Lemma synthesis_cloning_calls (job_dir vocals dubbed target : string)
    (segs : list Segment) :
  target ∈ xtts_langs ->
  emits (cloning_event vocals target)
        (synthesis env job_dir vocals dubbed target segs).
Proof.
  intros Hin. unfold synthesis. rewrite bool_decide_eq_true_2 by exact Hin.
  repeat (emits_step; try exact I); apply xtts_loop_calls.
Qed.

Lemma edge_voices_entry (target : string) (lang_voices : gmap string string) :
  edge_voices !! target = Some lang_voices ->
  exists male female, lang_voices = voices male female.
Proof.
  intros H. apply elem_of_list_to_map_2 in H.
  repeat (apply elem_of_cons in H as [[= -> ->] | H]; [eauto |]).
  apply elem_of_nil in H. contradiction.
Qed.

Lemma classified_gender_cases (path : string) :
  classified_gender env path = "Male" \/ classified_gender env path = "Female".
Proof.
  unfold classified_gender. destruct (pyin env path 30 50 400) as [f0 |]; [| auto].
  destruct (nanmean f0) as [m |]; [| auto]. destruct (Qlt_bool 165 m); auto.
Qed.

Lemma select_voice_run (target gender : string) :
  gender = "Male" \/ gender = "Female" ->
  exists voice,
    persona target gender = Some voice /\
    forall w, select_voice target gender w = (Val voice, w).
Proof.
  intros Hg. unfold persona, select_voice, default_voices.
  assert (exists male female,
            default (voices "en-US-ChristopherNeural" "en-US-JennyNeural")
                    (edge_voices !! target) = voices male female)
    as (male & female & ->).
  { destruct (edge_voices !! target) as [lv |] eqn:E; simpl.
    - apply (edge_voices_entry _ _ E).
    - eauto. }
  unfold voices, bind, pure. rewrite lookup_insert_eq.
  destruct Hg as [-> | ->].
  - rewrite lookup_insert_eq. eauto.
  - rewrite lookup_insert_ne, lookup_insert_eq by discriminate. eauto.
Qed.

Lemma synthesis_fallback_calls (job_dir vocals dubbed target : string)
    (segs : list Segment) (w : World) :
  target ∉ xtts_langs ->
  exists voice rest,
    persona target (classified_gender env vocals) = Some voice /\
    trace (synthesis env job_dir vocals dubbed target segs w).2 =
      trace w ++ EvDetectGender vocals :: rest /\
    Forall (fallback_event voice) rest.
Proof.
  intros Hout. unfold synthesis. rewrite bool_decide_eq_false_2 by exact Hout.
  destruct (select_voice_run target _ (classified_gender_cases vocals))
    as (voice & Hpersona & Hsel).
  exists voice.
  unfold bind at 1. rewrite detect_gender_run.
  unfold bind at 1. rewrite Hsel.
  assert (Hrest : emits (fallback_event voice)
            (let* combined := edge_loop env job_dir voice 0 segs [] in
             external (EvSfWrite dubbed combined 24000) "soundfile"
                      (sf_write env combined) : M Response unit)).
  { repeat (emits_step; try exact I). apply edge_loop_calls. }
  destruct (Hrest (emit (EvDetectGender vocals) w)) as (rest & Ht & HP).
  exists rest. split; [exact Hpersona |]. split; [| exact HP].
  rewrite Ht. simpl. rewrite <- app_assoc. reflexivity.
Qed.

End Synthesis.

Section StageRuns.

Variable env : Env.

Lemma synthesis_cloning_run (job_dir vocals dubbed target : string)
    (segs : list Segment) (w : World) :
  target ∈ xtts_langs ->
  (XTTS_MODEL w = None -> load_xtts env = Some tt) ->
  let combined := waveforms (xtts_tts env) (speakable 0 segs) in
  synthesis env job_dir vocals dubbed target segs w =
    external (EvSfWrite dubbed combined 24000) "soundfile" (sf_write env combined)
      (emit_all (map (fun c => EvXTTS c.2 vocals target) (speakable 0 segs))
                (xtts_ready w)).
Proof.
  intros Hin Hload combined. unfold synthesis, xtts_ready.
  rewrite bool_decide_eq_true_2 by exact Hin.
  unfold bind at 1. unfold get_world. unfold bind at 1.
  destruct (XTTS_MODEL w) as [[] |] eqn:Hm.
  - unfold pure at 1. unfold bind at 1. rewrite xtts_loop_run. reflexivity.
  - rewrite (Hload eq_refl). unfold external, bind at 1 2, call, pure, modify.
    unfold bind at 1. rewrite xtts_loop_run. reflexivity.
Qed.

Lemma synthesis_fallback_run (job_dir vocals dubbed target : string)
    (segs : list Segment) (w : World) :
  target ∉ xtts_langs ->
  exists voice,
    persona target (classified_gender env vocals) = Some voice /\
    let combined := waveforms (fun i t => edge_tts env i t voice) (speakable 0 segs) in
    synthesis env job_dir vocals dubbed target segs w =
      external (EvSfWrite dubbed combined 24000) "soundfile" (sf_write env combined)
        (emit_all (EvDetectGender vocals ::
                   map (fun c => EvEdgeTTS c.2 voice (temp_seg_file job_dir c.1))
                       (speakable 0 segs)) w).
Proof.
  intros Hout. unfold synthesis. rewrite bool_decide_eq_false_2 by exact Hout.
  destruct (select_voice_run target _ (classified_gender_cases env vocals))
    as (voice & Hpersona & Hsel).
  exists voice. split; [exact Hpersona |]. cbv zeta.
  unfold bind at 1. rewrite detect_gender_run.
  unfold bind at 1. rewrite Hsel.
  unfold bind at 1. rewrite edge_loop_run, emit_all_emit. reflexivity.
Qed.


Lemma dub_from_mixing_failure (job_id job_dir bg : string) (w : World) :
  ffmpeg_run env (mix_graph (video_path job_dir) (dubbed_audio job_dir) bg
                            (final_video job_dir)) = Some FfmpegError ->
  dub_from_mixing env job_id job_dir bg w =
    (Ret (RespError "Mixing failed"),
     set_dirs (filter (fun d => in_tree job_dir d = false) (dirs w))
       (emit_all [EvFfmpegRun (mix_graph (video_path job_dir) (dubbed_audio job_dir) bg
                                         (final_video job_dir));
                  EvRmtree job_dir] w)).
Proof.
  intros Hmix.
  unfold dub_from_mixing, dub_from_upload, mixing, upload, rmtree, external,
    try_except, bind, call, modify, pure, return_.
  rewrite Hmix. simpl.
  unfold set_dirs, emit, emit_all. simpl.
  rewrite <- !app_assoc. reflexivity.
Qed.

(** A job that has reached the translation, with a translator: what
    [dub_video] does is the synthesis and what follows it, on the translated
    segments. *)
Lemma dub_video_from_synthesis (item : gmap string jval) (w w1 : World)
    (job : Job) (t : string) :
  acquisition env item w = (Val job, w1) ->
  target_lang job = JStr t ->
  GoogleTranslator env t = Some tt ->
  dub_video env item w =
    handle (dub_from_synthesis env (job_id job) (job_dir job) (vocals job) (bg job) t
              (translated_segments (translate env) 0 (segments job)))
           (emit_all (EvTranslatorInit (JStr t)
                        :: map (fun seg => EvTranslate t (text seg)) (segments job)) w1).
Proof.
  intros Hacq Ht Hok.
  unfold dub_video, handle. rewrite dub_video_body_split.
  unfold bind at 1. rewrite Hacq.
  unfold dub_from_translation, bind at 1. rewrite Ht, (translation_run _ _ _ _ Hok).
  reflexivity.
Qed.

End StageRuns.

Lemma handle_world (m : M Response Response) (w : World) : (handle m w).2 = (m w).2.
Proof. unfold handle. destruct (m w) as [[r | r | e] w']; reflexivity. Qed.

Lemma translation_calls_quiet (t : string) (segs : list Segment) :
  Forall (fun e => synthesis_call e = false)
         (EvTranslatorInit (JStr t) :: map (fun seg => EvTranslate t (text seg)) segs).
Proof.
  constructor; [reflexivity |]. apply Forall_map, Forall_forall. intros seg _. reflexivity.
Qed.

Lemma trace_xtts_ready (w : World) :
  trace (xtts_ready w) =
    trace w ++ match XTTS_MODEL w with None => [EvLoadXTTS] | Some _ => [] end.
Proof.
  unfold xtts_ready. destruct (XTTS_MODEL w); simpl; [rewrite app_nil_r |]; reflexivity.
Qed.

(** What the synthesis loops speak, of the segments the translation hands
    over, is what the job has to say. *)
Lemma speakable_translated (tr : nat -> string -> option string) (i : nat)
    (segs : list Segment) :
  speakable i (translated_segments tr i segs) = texts_to_speak tr i segs.
Proof.
  revert i. induction segs as [|seg rest IH]; intros i; simpl; [reflexivity |].
  unfold no_translated_text. simpl. rewrite IH.
  destruct (tr i (text seg)) as [s |]; simpl.
  - destruct (String.eqb s ""); reflexivity.
  - destruct (String.eqb (text seg) ""); reflexivity.
Qed.

Lemma quiet_is_cloning (vocals target : string) (e : Event) :
  synthesis_call e = false -> cloning_event vocals target e.
Proof. destruct e; simpl; intros H; first [discriminate H | exact I]. Qed.

Lemma quiet_is_fallback (voice : string) (e : Event) :
  synthesis_call e = false -> fallback_event voice e.
Proof. destruct e; simpl; intros H; first [discriminate H | exact I]. Qed.

Section SynthesisTraces.

Variable env : Env.

(** The write of the dubbed track and what follows it call no synthesizer. *)
Lemma closing_stage_quiet (job_id job_dir bg dubbed : string) (combined : list Q) :
  emits (fun e => synthesis_call e = false)
        (external (EvSfWrite dubbed combined 24000) "soundfile" (sf_write env combined) ;;
         dub_from_mixing env job_id job_dir bg).
Proof.
  apply emits_bind.
  - apply emits_external. reflexivity.
  - intros _. apply dub_from_mixing_calls. intros [] He; try discriminate He; reflexivity.
Qed.

(** The calls of a job in cloning mode, from the synthesis on. *)
Lemma dub_from_synthesis_cloning (job_id job_dir vocals bg target : string)
    (segs : list Segment) (w : World) :
  target ∈ xtts_langs ->
  (XTTS_MODEL w = None -> load_xtts env = Some tt) ->
  exists rest,
    trace (dub_from_synthesis env job_id job_dir vocals bg target segs w).2 =
      trace w ++ match XTTS_MODEL w with None => [EvLoadXTTS] | Some _ => [] end
              ++ map (fun c => EvXTTS c.2 vocals target) (speakable 0 segs) ++ rest /\
    Forall (fun e => synthesis_call e = false) rest.
Proof.
  intros Hin Hload.
  set (combined := waveforms (xtts_tts env) (speakable 0 segs)).
  set (w3 := emit_all (map (fun c => EvXTTS c.2 vocals target) (speakable 0 segs))
                      (xtts_ready w)).
  assert (Hrun : dub_from_synthesis env job_id job_dir vocals bg target segs w =
            (external (EvSfWrite (dubbed_audio job_dir) combined 24000) "soundfile"
                      (sf_write env combined) ;;
             dub_from_mixing env job_id job_dir bg) w3).
  { unfold dub_from_synthesis, bind at 1.
    rewrite (synthesis_cloning_run env job_dir vocals _ target segs w Hin Hload).
    reflexivity. }
  destruct (closing_stage_quiet job_id job_dir bg (dubbed_audio job_dir) combined w3)
    as (rest & Hrest & Hquiet).
  exists rest. split; [| exact Hquiet].
  rewrite Hrun, Hrest. unfold w3. simpl. rewrite trace_xtts_ready, <- !app_assoc.
  reflexivity.
Qed.

(** The calls of a job in fallback mode, from the synthesis on. *)
Lemma dub_from_synthesis_fallback (job_id job_dir vocals bg target : string)
    (segs : list Segment) (w : World) :
  target ∉ xtts_langs ->
  exists voice rest,
    persona target (classified_gender env vocals) = Some voice /\
    trace (dub_from_synthesis env job_id job_dir vocals bg target segs w).2 =
      trace w ++ EvDetectGender vocals
              :: map (fun c => EvEdgeTTS c.2 voice (temp_seg_file job_dir c.1))
                     (speakable 0 segs) ++ rest /\
    Forall (fun e => synthesis_call e = false) rest.
Proof.
  intros Hout.
  destruct (synthesis_fallback_run env job_dir vocals (dubbed_audio job_dir) target
              segs w Hout) as (voice & Hpersona & Hsyn).
  cbv zeta in Hsyn.
  set (combined := waveforms (fun i t => edge_tts env i t voice) (speakable 0 segs)) in *.
  set (w3 := emit_all (EvDetectGender vocals
                         :: map (fun c => EvEdgeTTS c.2 voice (temp_seg_file job_dir c.1))
                                (speakable 0 segs)) w) in *.
  assert (Hrun : dub_from_synthesis env job_id job_dir vocals bg target segs w =
            (external (EvSfWrite (dubbed_audio job_dir) combined 24000) "soundfile"
                      (sf_write env combined) ;;
             dub_from_mixing env job_id job_dir bg) w3).
  { unfold dub_from_synthesis, bind at 1. rewrite Hsyn. reflexivity. }
  destruct (closing_stage_quiet job_id job_dir bg (dubbed_audio job_dir) combined w3)
    as (rest & Hrest & Hquiet).
  exists voice, rest. split; [exact Hpersona |]. split; [| exact Hquiet].
  rewrite Hrun, Hrest. unfold w3. simpl. rewrite <- !app_assoc. reflexivity.
Qed.

End SynthesisTraces.

(** C5. In a job that reaches the synthesis, the calls made up to the end of
    the translation include none to a synthesizer or to the gender
    classifier, and the calls made from there on depend on the membership of
    the target language in [xtts_langs] alone.

    If it is a member (as "hi" is), the gender classifier is not called, no
    cloud voice is called, and every call of the cloning synthesizer has the
    vocal stem of the job as its reference and the target language as its
    language; and when the cloning synthesizer is cached or loads, the calls
    are the load (if it was not cached), then one call of the cloning
    synthesizer for each text the job has to say, in the order of the
    segments, then calls none of which is to a synthesizer.

    If it is not (as "kn" is not), the first call is the one call of the
    gender classifier, on the vocal stem of the job; then comes one call of
    the cloud voice for each text the job has to say, in the order of the
    segments, each with the voice of the table for the target language and
    the gender the classifier answered (Gagan or Sapna for "kn", Christopher
    or Jenny for a language the table does not list) and with the temporary
    file of its segment; then calls none of which is to a synthesizer. *)
Theorem synthesis_mode_by_target_language
    (env : Env) (item : gmap string jval) (w w1 : World) (job : Job) (t : string) :
  acquisition env item w = (Val job, w1) ->
  target_lang job = JStr t ->
  GoogleTranslator env t = Some tt ->
  let to_say := texts_to_speak (translate env) 0 (segments job) in
  (exists before after,
     trace (dub_video env item w).2 = trace w ++ before ++ after /\
     Forall (fun e => synthesis_call e = false) before /\
     if bool_decide (t ∈ xtts_langs)
     then Forall (cloning_event (vocals job) t) after /\
          ((XTTS_MODEL w1 = None -> load_xtts env = Some tt) ->
           exists rest,
             after = match XTTS_MODEL w1 with None => [EvLoadXTTS] | Some _ => [] end
                     ++ map (fun c => EvXTTS c.2 (vocals job) t) to_say ++ rest /\
             Forall (fun e => synthesis_call e = false) rest)
     else exists gender voice rest,
         (forall w0, @detect_gender Response env (vocals job) w0 =
                       (Val gender, emit (EvDetectGender (vocals job)) w0)) /\
         gender = classified_gender env (vocals job) /\
         persona t gender = Some voice /\
         after = EvDetectGender (vocals job)
                 :: map (fun c => EvEdgeTTS c.2 voice (temp_seg_file (job_dir job) c.1))
                        to_say ++ rest /\
         Forall (fallback_event voice)
                (map (fun c => EvEdgeTTS c.2 voice (temp_seg_file (job_dir job) c.1))
                     to_say ++ rest) /\
         Forall (fun e => synthesis_call e = false) rest) /\
  bool_decide ("hi" ∈ xtts_langs) = true /\
  bool_decide ("kn" ∈ xtts_langs) = false /\
  persona "kn" "Male" = Some "kn-IN-GaganNeural" /\
  persona "kn" "Female" = Some "kn-IN-SapnaNeural" /\
  (forall l, edge_voices !! l = None ->
     persona l "Male" = Some "en-US-ChristopherNeural" /\
     persona l "Female" = Some "en-US-JennyNeural").
Proof.
  intros Hacq Ht Hok to_say. split.
  - destruct (acquisition_calls env item w) as (front & Hfront & Hquiet).
    rewrite Hacq in Hfront. simpl in Hfront.
    set (tr := EvTranslatorInit (JStr t)
                 :: map (fun seg => EvTranslate t (text seg)) (segments job)).
    rewrite (dub_video_from_synthesis env item w w1 job t Hacq Ht Hok), handle_world.
    fold tr. set (w2 := emit_all tr w1).
    assert (Hw2 : trace w2 = trace w ++ front ++ tr).
    { unfold w2. simpl. rewrite Hfront, <- app_assoc. reflexivity. }
    assert (Hbefore : Forall (fun e => synthesis_call e = false) (front ++ tr)).
    { apply Forall_app. split; [exact Hquiet | apply translation_calls_quiet]. }
    exists (front ++ tr).
    destruct (bool_decide (t ∈ xtts_langs)) eqn:Hmode.
    + apply bool_decide_eq_true_1 in Hmode.
      assert (Hall : emits (cloning_event (vocals job) t)
                (dub_from_synthesis env (job_id job) (job_dir job) (vocals job) (bg job) t
                   (translated_segments (translate env) 0 (segments job)))).
      { unfold dub_from_synthesis. apply emits_bind.
        - apply synthesis_cloning_calls, Hmode.
        - intros _. apply dub_from_mixing_calls.
          intros [] He; try discriminate He; exact I. }
      destruct (Hall w2) as (after & Hafter & HP).
      exists after. rewrite Hafter, Hw2, <- app_assoc.
      split; [reflexivity |]. split; [exact Hbefore |]. split; [exact HP |].
      intros Hload.
      destruct (dub_from_synthesis_cloning env (job_id job) (job_dir job) (vocals job)
                  (bg job) t (translated_segments (translate env) 0 (segments job))
                  w2 Hmode Hload) as (rest & Hrest & Hrq).
      exists rest. split; [| exact Hrq].
      rewrite Hafter, speakable_translated in Hrest.
      apply app_inv_head in Hrest. exact Hrest.
    + apply bool_decide_eq_false_1 in Hmode.
      destruct (dub_from_synthesis_fallback env (job_id job) (job_dir job) (vocals job)
                  (bg job) t (translated_segments (translate env) 0 (segments job))
                  w2 Hmode) as (voice & rest & Hpersona & Htrace & Hrq).
      rewrite speakable_translated in Htrace. fold to_say in Htrace.
      eexists. rewrite Htrace, Hw2, <- app_assoc.
      split; [reflexivity |]. split; [exact Hbefore |].
      exists (classified_gender env (vocals job)), voice, rest.
      split; [intros w0; apply detect_gender_run |].
      split; [reflexivity |]. split; [exact Hpersona |]. split; [reflexivity |].
      split; [| exact Hrq].
      apply Forall_app. split.
      * apply Forall_map, Forall_forall. intros c _. reflexivity.
      * apply (Forall_impl _ _ _ Hrq). intros e. apply quiet_is_fallback.
  - split; [vm_compute; reflexivity |]. split; [vm_compute; reflexivity |].
    split; [vm_compute; reflexivity |]. split; [vm_compute; reflexivity |].
    intros l Hl. unfold persona. rewrite Hl. split; vm_compute; reflexivity.
Qed.

Lemma synthesis_mode_by_target_language_witness :
  let hindi := request "job_1700000000"
                       "https://r2.example/temp/job_1700000000/video.mp4" "hi" in
  acquisition env_ok sample_request world0 =
    (Val sample_job, (acquisition env_ok sample_request world0).2) /\
  target_lang sample_job = JStr "kn" /\
  GoogleTranslator env_ok "kn" = Some tt /\
  (exists before rest,
     trace (dub_video env_ok sample_request world0).2 =
       trace world0 ++ before ++
         [EvDetectGender (vocals sample_job);
          EvEdgeTTS "hello" "kn-IN-SapnaNeural"
                    (temp_seg_file "/data/dubbing/job_1700000000" 0);
          EvEdgeTTS "tr:world" "kn-IN-SapnaNeural"
                    (temp_seg_file "/data/dubbing/job_1700000000" 1)] ++ rest /\
     Forall (fun e => synthesis_call e = false) before /\
     Forall (fun e => synthesis_call e = false) rest) /\
  (exists before rest,
     trace (dub_video env_ok hindi world0).2 =
       trace world0 ++ before ++
         [EvLoadXTTS;
          EvXTTS "hello" (vocals sample_job) "hi";
          EvXTTS "tr:world" (vocals sample_job) "hi"] ++ rest /\
     Forall (fun e => synthesis_call e = false) before /\
     Forall (fun e => synthesis_call e = false) rest).
Proof.
  intros hindi.
  assert (H1 : acquisition env_ok sample_request world0 =
               (Val sample_job, (acquisition env_ok sample_request world0).2))
    by (vm_compute; reflexivity).
  assert (H2 : target_lang sample_job = JStr "kn") by reflexivity.
  assert (H3 : GoogleTranslator env_ok "kn" = Some tt) by reflexivity.
  split; [exact H1 |]. split; [exact H2 |]. split; [exact H3 |]. split.
  - destruct (synthesis_mode_by_target_language env_ok _ world0 _ sample_job "kn" H1 H2 H3)
      as [(before & after & Htrace & Hquiet & Hmode) _].
    assert (Hfallback : exists gender voice rest,
              (forall w0, @detect_gender Response env_ok (vocals sample_job) w0 =
                            (Val gender, emit (EvDetectGender (vocals sample_job)) w0)) /\
              gender = "Female" /\
              persona "kn" gender = Some voice /\
              after = EvDetectGender (vocals sample_job)
                      :: map (fun c => EvEdgeTTS c.2 voice
                                         (temp_seg_file (job_dir sample_job) c.1))
                             [(0%nat, "hello"); (1%nat, "tr:world")] ++ rest /\
              Forall (fallback_event voice)
                     (map (fun c => EvEdgeTTS c.2 voice
                                      (temp_seg_file (job_dir sample_job) c.1))
                          [(0%nat, "hello"); (1%nat, "tr:world")] ++ rest) /\
              Forall (fun e => synthesis_call e = false) rest) by exact Hmode.
    destruct Hfallback as (gender & voice & rest & _ & -> & Hvoice & -> & _ & Hrest).
    injection Hvoice as <-.
    exists before, rest. split; [exact Htrace |]. split; [exact Hquiet | exact Hrest].
  - set (job := mkJob "job_1700000000" "/data/dubbing/job_1700000000" (JStr "hi")
                      (vocals sample_job) (bg sample_job) [seg_hello; seg_world]).
    assert (G1 : acquisition env_ok hindi world0 =
                 (Val job, (acquisition env_ok hindi world0).2))
      by (vm_compute; reflexivity).
    assert (G2 : XTTS_MODEL (acquisition env_ok hindi world0).2 = None)
      by (vm_compute; reflexivity).
    destruct (synthesis_mode_by_target_language env_ok _ world0 _ job "hi"
                G1 eq_refl eq_refl)
      as [(before & after & Htrace & Hquiet & Hmode) _].
    assert (Hcloning :
              Forall (cloning_event (vocals job) "hi") after /\
              ((XTTS_MODEL (acquisition env_ok hindi world0).2 = None ->
                load_xtts env_ok = Some tt) ->
               exists rest,
                 after = match XTTS_MODEL (acquisition env_ok hindi world0).2 with
                         | None => [EvLoadXTTS]
                         | Some _ => []
                         end
                         ++ map (fun c => EvXTTS c.2 (vocals job) "hi")
                                [(0%nat, "hello"); (1%nat, "tr:world")] ++ rest /\
                 Forall (fun e => synthesis_call e = false) rest)) by exact Hmode.
    destruct Hcloning as [_ Hcalls].
    destruct (Hcalls (fun _ => eq_refl)) as (rest & Hafter & Hrest).
    rewrite G2 in Hafter. subst after.
    exists before, rest. split; [exact Htrace |]. split; [exact Hquiet | exact Hrest].
Defined.

Section EmptySynthesis.



Lemma dirs_xtts_ready (w : World) : dirs (xtts_ready w) = dirs w.
Proof. unfold xtts_ready. destruct (XTTS_MODEL w); reflexivity. Qed.

End EmptySynthesis.



(** C1: a job whose source video cannot be fetched ends with the exception
    of the fetch, and its directory, created just before, is still there. *)
Theorem job_dir_left_after_failed_download :
  (dub_video env_fetch_fails sample_request world0).1 = Raised (OtherException "requests") /\
  trace (dub_video env_fetch_fails sample_request world0).2 =
    [EvRateGet "unknown_user"; EvRateSet "unknown_user" [100000%Q];
     EvMakedirs "/data/dubbing/job_1700000000";
     EvHttpGet "https://r2.example/temp/job_1700000000/video.mp4"] /\
  "/data/dubbing/job_1700000000" ∈ dirs (dub_video env_fetch_fails sample_request world0).2.
Proof.
  split; [vm_compute; reflexivity |].
  split; [vm_compute; reflexivity |].
  apply (bool_decide_unpack _). vm_compute. exact I.
Qed.

(** C9: a worker that has served a job in English serves a job in French;
    the second job loads no alignment model and is aligned with the model
    loaded for English. *)
Theorem second_job_aligned_with_cached_model :
  let w1 := (dub_video env_ok sample_request world0).2 in
  let w2 := (dub_video env_french second_request w1).2 in
  fst <$> transcribe env_french
            "/data/dubbing/job_1700000060/separated/htdemucs/audio/vocals.wav"
    = Some "fr" /\
  ALIGN_MODEL w1 = Some "en" /\
  List.filter alignment_call (drop (length (trace w1)) (trace w2)) = [EvAlign "en"].
Proof. repeat split; vm_compute; reflexivity. Qed.

Section Mixing.

Variable env : Env.

Lemma emits_anything {R A} (m : M R A) (P : Event -> Prop) :
  emits P m -> emits (fun _ => True) m.
Proof. apply emits_weaken. auto. Qed.

(** The first call from the mixing on is the run of the graph. *)
Lemma dub_from_mixing_first_call (job_id job_dir bg : string) (w : World) :
  exists evs,
    trace (dub_from_mixing env job_id job_dir bg w).2 =
      trace w ++ EvFfmpegRun (mix_graph (video_path job_dir) (dubbed_audio job_dir) bg
                                        (final_video job_dir)) :: evs.
Proof.
  set (g := mix_graph (video_path job_dir) (dubbed_audio job_dir) bg (final_video job_dir)).
  assert (Hrest : emits (fun _ => True)
            (try_except
               (match ffmpeg_run env g with
                | None => pure tt
                | Some e => raise e
                end)
               ffmpeg_Error
               (fun _ => rmtree job_dir ;; return_ (RespError "Mixing failed")) ;;
             dub_from_upload env job_id job_dir)).
  { unfold dub_from_upload, upload, rmtree. repeat (emits_step; try exact I). }
  destruct (Hrest (emit (EvFfmpegRun g) w)) as (evs & Ht & _).
  exists evs. simpl in Ht. rewrite <- app_assoc in Ht. exact Ht.
Qed.

Lemma dub_video_from_mixing (item : gmap string jval) (w w1 w3 : World)
    (job : Job) (t : string) :
  acquisition env item w = (Val job, w1) ->
  target_lang job = JStr t ->
  GoogleTranslator env t = Some tt ->
  synthesis env (job_dir job) (vocals job) (dubbed_audio (job_dir job)) t
            (translated_segments (translate env) 0 (segments job))
            (emit_all (EvTranslatorInit (JStr t)
                         :: map (fun seg => EvTranslate t (text seg)) (segments job)) w1)
    = (Val tt, w3) ->
  dub_video env item w =
    handle (dub_from_mixing env (job_id job) (job_dir job) (bg job)) w3.
Proof.
  intros Hacq Ht Hok Hsyn.
  rewrite (dub_video_from_synthesis env item w w1 job t Hacq Ht Hok).
  unfold handle, dub_from_synthesis, bind. rewrite Hsyn. reflexivity.
Qed.

End Mixing.

(** C8, as stated, fails: with a dubbed track of 5 seconds and a background
    stem of 3, the audio of the output lasts 5 seconds, not the 3 of the
    shorter of the two. *)
Lemma mix_lasts_as_long_as_dubbed_track :
  let job_dir := "/data/dubbing/job_1700000000" in
  let g := mix_graph (video_path job_dir) (dubbed_audio job_dir) (bg sample_job)
                     (final_video job_dir) in
  mixed_length g sample_lengths = 5%nat /\
  Nat.min (sample_lengths (dubbed_audio job_dir)) (sample_lengths (bg sample_job)) = 3%nat.
Proof. split; vm_compute; reflexivity. Qed.

(** C8, amended. In a job that reaches the mixing, the first call is the run
    of one ffmpeg graph: its video is the video stream of the source video,
    copied ([vcodec] "copy"); its audio is the [amix] of two inputs, the
    dubbed track at full amplitude and the background stem at half amplitude,
    encoded as "aac", with the duration of the first input, the dubbed track,
    whether it is the shorter of the two or not. If the run raises
    [ffmpeg.Error], [dub_video] returns the error result "Mixing failed" and
    the job directory is removed. *)
Theorem mixer_graph_and_failure
    (env : Env) (item : gmap string jval) (w w1 w3 : World) (job : Job) (t : string)
    (len : string -> nat) :
  acquisition env item w = (Val job, w1) ->
  target_lang job = JStr t ->
  GoogleTranslator env t = Some tt ->
  synthesis env (job_dir job) (vocals job) (dubbed_audio (job_dir job)) t
            (translated_segments (translate env) 0 (segments job))
            (emit_all (EvTranslatorInit (JStr t)
                         :: map (fun seg => EvTranslate t (text seg)) (segments job)) w1)
    = (Val tt, w3) ->
  let g := mix_graph (video_path (job_dir job)) (dubbed_audio (job_dir job)) (bg job)
                     (final_video (job_dir job)) in
  (exists evs, trace (dub_video env item w).2 = trace w3 ++ EvFfmpegRun g :: evs) /\
  mg_video_input g = video_path (job_dir job) /\
  mg_vcodec g = "copy" /\
  mg_acodec g = "aac" /\
  amix_srcs (mg_audio g) =
    [AInput (dubbed_audio (job_dir job)); AVolume 0.5 (AInput (bg job))] /\
  (map src_gain (amix_srcs (mg_audio g)) = [1%Q; (0.5 * 1)%Q] /\ (0.5 * 1 == 1 # 2)%Q) /\
  amix_inputs (mg_audio g) = 2%nat /\
  amix_duration (mg_audio g) = DurFirst /\
  mixed_length g len = len (dubbed_audio (job_dir job)) /\
  (ffmpeg_run env g = Some FfmpegError ->
   exists w',
     dub_video env item w = (Returned (RespError "Mixing failed"), w') /\
     job_dir job ∉ dirs w').
Proof.
  intros Hacq Ht Hok Hsyn g.
  pose proof (dub_video_from_mixing env item w w1 w3 job t Hacq Ht Hok Hsyn) as Hrun.
  split.
  { rewrite Hrun, handle_world. apply dub_from_mixing_first_call. }
  do 4 (split; [reflexivity |]).
  split; [split; reflexivity |].
  do 3 (split; [reflexivity |]).
  intros Hfail. rewrite Hrun. unfold handle.
  rewrite (dub_from_mixing_failure env _ _ _ _ Hfail).
  eexists. split; [reflexivity |].
  simpl. apply not_in_removed_tree.
Qed.

Lemma mixer_graph_and_failure_witness :
  let w1 := (acquisition env_mix_fails sample_request world0).2 in
  let w2 := emit_all (EvTranslatorInit (JStr "kn")
                        :: map (fun seg => EvTranslate "kn" (text seg))
                               (segments sample_job)) w1 in
  let translated := translated_segments (translate env_mix_fails) 0 (segments sample_job) in
  let w3 := (synthesis env_mix_fails (job_dir sample_job) (vocals sample_job)
                       (dubbed_audio (job_dir sample_job)) "kn" translated w2).2 in
  acquisition env_mix_fails sample_request world0 = (Val sample_job, w1) /\
  target_lang sample_job = JStr "kn" /\
  GoogleTranslator env_mix_fails "kn" = Some tt /\
  synthesis env_mix_fails (job_dir sample_job) (vocals sample_job)
            (dubbed_audio (job_dir sample_job)) "kn" translated w2 = (Val tt, w3) /\
  exists w',
    dub_video env_mix_fails sample_request world0 =
      (Returned (RespError "Mixing failed"), w') /\
    job_dir sample_job ∉ dirs w'.
Proof.
  intros w1 w2 translated w3.
  assert (H1 : acquisition env_mix_fails sample_request world0 = (Val sample_job, w1))
    by (vm_compute; reflexivity).
  assert (H2 : target_lang sample_job = JStr "kn") by reflexivity.
  assert (H3 : GoogleTranslator env_mix_fails "kn" = Some tt) by reflexivity.
  assert (H4 : synthesis env_mix_fails (job_dir sample_job) (vocals sample_job)
                 (dubbed_audio (job_dir sample_job)) "kn" translated w2 = (Val tt, w3))
    by (vm_compute; reflexivity).
  split; [exact H1 |]. split; [exact H2 |]. split; [exact H3 |]. split; [exact H4 |].
  destruct (mixer_graph_and_failure env_mix_fails _ world0 w1 w3 sample_job "kn"
              sample_lengths H1 H2 H3 H4)
    as (_ & _ & _ & _ & _ & _ & _ & _ & _ & Hfail).
  apply Hfail. reflexivity.
Defined.


(** ** Further facts about the entry checks and the model cache *)

(** Python's [$] lets one trailing newline through the job identifier
    check. *)
Example re_match_job_id_trailing_newline :
  re_match_job_id (String "j" (String "o" (String "b" (String newline "")))) = true /\
  job_id_wellformed (String "j" (String "o" (String "b" (String newline "")))) = false.
Proof. split; reflexivity. Qed.

(** X21. Whatever language the recognizer detects, a worker whose alignment
    model is cached loads no other and aligns with the cached one. *)
Lemma cached_align_model_is_reused (env : Env) (vocals l : string) (w : World) :
  ALIGN_MODEL w = Some l ->
  exists evs,
    trace (transcription env vocals w).2 = trace w ++ evs /\
    Forall (fun e => match e with
                     | EvLoadAlign _ => False
                     | EvAlign model_language => model_language = l
                     | _ => True
                     end) evs.
Proof.
  intros Hl.
  unfold transcription, external, bind, call, get_world, modify, pure, raise.
  repeat (cbn; rewrite ?Hl;
          match goal with
          | |- context [match ?x with Some _ => _ | None => _ end] => destruct x as [? |]
          | |- context [let (_, _) := ?x in _] => is_var x; destruct x
          end).
  all: cbn; eexists; (split; [rewrite <- ?app_assoc; reflexivity |]);
    repeat constructor.
  all: rewrite Hl; reflexivity.
Qed.

(** ** The job identifier check, exactly *)

Section JobIdentifier.

Lemma match_rest_all_safe (s : string) :
  forallb safe_char (list_ascii_of_string s) = true -> match_rest s = true.
Proof.
  induction s as [|c rest IH]; simpl; [reflexivity |].
  rewrite andb_true_iff. intros [-> Hrest]. apply IH, Hrest.
Qed.

Lemma match_rest_newline (s : string) :
  forallb safe_char (list_ascii_of_string s) = true ->
  match_rest (s ++ String newline "") = true.
Proof.
  induction s as [|c rest IH]; simpl; [reflexivity |].
  rewrite andb_true_iff. intros [-> Hrest]. apply IH, Hrest.
Qed.

Lemma wellformed_accepted (s : string) :
  job_id_wellformed s = true -> re_match_job_id s = true.
Proof.
  destruct s as [|c rest]; [discriminate |].
  unfold job_id_wellformed, re_match_job_id. simpl.
  rewrite andb_true_iff. intros [-> Hrest]. apply match_rest_all_safe, Hrest.
Qed.

Lemma ends_with_newline_split (s : string) :
  ends_with_newline s = true -> exists p, s = (p ++ String newline "")%string.
Proof.
  induction s as [|c rest IH]; [discriminate |].
  destruct rest as [|c' rest'].
  - simpl. intros H. apply Ascii.eqb_eq in H. subst c. exists "". reflexivity.
  - intros H. destruct (IH H) as [p Hp]. exists (String c p). rewrite Hp.
    reflexivity.
Qed.

Lemma match_rest_before_newline (p : string) :
  match_rest (p ++ String newline "") = true ->
  forallb safe_char (list_ascii_of_string p) = true.
Proof.
  induction p as [|c rest IH]; simpl; [reflexivity |].
  destruct (safe_char c) eqn:Hc; simpl.
  - exact IH.
  - rewrite andb_true_iff. intros [_ H]. apply String.eqb_eq in H.
    destruct rest; discriminate H.
Qed.

Lemma safe_char_not_separator (c : ascii) :
  safe_char c = true -> c <> "/"%char /\ c <> "."%char /\ c <> "\"%char.
Proof. intros H. repeat split; intros ->; discriminate H. Qed.

Lemma all_safe_pretty_N_go (x : N) (s : string) :
  forallb safe_char (list_ascii_of_string s) = true ->
  forallb safe_char (list_ascii_of_string (pretty_N_go x s)) = true.
Proof.
  revert s. induction (N.lt_wf_0 x) as [x _ IH]; intros s Hs.
  destruct (N.eq_0_gt_0_cases x) as [-> | Hpos].
  - rewrite pretty_N_go_0. exact Hs.
  - rewrite pretty_N_go_step by exact Hpos. apply IH.
    + apply N.div_lt; [exact Hpos | reflexivity].
    + simpl. rewrite Hs, andb_true_r.
      unfold pretty_N_char. repeat case_match; reflexivity.
Qed.

Lemma all_safe_pretty_N (x : N) :
  forallb safe_char (list_ascii_of_string (pretty x)) = true.
Proof.
  unfold pretty, pretty_N. destruct (decide (x = 0%N)); [reflexivity |].
  apply all_safe_pretty_N_go. reflexivity.
Qed.

Lemma all_safe_pretty_Z (z : Z) :
  forallb safe_char (list_ascii_of_string (pretty z)) = true.
Proof.
  destruct z as [| p | p]; [reflexivity | apply (all_safe_pretty_N (Npos p)) |].
  change (pretty (Zneg p)) with ("-" +:+ pretty (Npos p)).
  simpl. apply (all_safe_pretty_N (Npos p)).
Qed.

End JobIdentifier.

Lemma re_match_job_id_cases (s : string) :
  re_match_job_id s = true <->
  job_id_wellformed s = true \/
  exists p, s = (p ++ String newline "")%string /\ job_id_wellformed p = true.
Proof.
  split.
  - intros Hm. destruct (re_match_job_id_shape s Hm) as [Hwf | Hnl]; [left; exact Hwf |].
    right. destruct (ends_with_newline_split s Hnl) as [p ->]. exists p.
    split; [reflexivity |].
    destruct p as [|c rest]; [discriminate Hm |].
    unfold re_match_job_id in Hm. simpl in Hm. apply andb_true_iff in Hm as [Hc Hrest].
    unfold job_id_wellformed. simpl. rewrite Hc. simpl.
    apply match_rest_before_newline, Hrest.
  - intros [Hwf | (p & -> & Hwf)]; [apply wellformed_accepted, Hwf |].
    destruct p as [|c rest]; [discriminate Hwf |].
    unfold job_id_wellformed in Hwf. simpl in Hwf. apply andb_true_iff in Hwf as [Hc Hrest].
    unfold re_match_job_id. simpl. rewrite Hc. simpl. apply match_rest_newline, Hrest.
Qed.

(** X1. The pattern of line 170 accepts exactly the identifiers that are not
    empty and made of characters of [[A-Za-z0-9_-]], and those followed by one
    newline. *)
Theorem re_match_job_id_exactly (s : string) :
  re_match_job_id s = true <->
  job_id_wellformed s = true \/
  exists p, s = (p ++ String newline "")%string /\ job_id_wellformed p = true.
Proof.
  split.
  - intros Hm. apply re_match_job_id_cases, Hm.
  - intros H. apply re_match_job_id_cases, H.
Qed.

(** X2. An identifier that passes the check of line 170 holds no path
    separator and no dot: the job directory made from it at line 189 is a
    direct child of [BASE_DIR]. *)
Theorem accepted_job_id_has_no_separator (s : string) (c : ascii) :
  re_match_job_id s = true ->
  In c (list_ascii_of_string s) ->
  c <> "/"%char /\ c <> "."%char /\ c <> "\"%char.
Proof.
  intros Hm Hin.
  assert (Hc : safe_char c = true \/ c = newline).
  { apply re_match_job_id_cases in Hm as [Hwf | (p & -> & Hwf)].
    - left. unfold job_id_wellformed in Hwf. apply andb_true_iff in Hwf as [_ Hall].
      rewrite forallb_forall in Hall. apply Hall, Hin.
    - unfold job_id_wellformed in Hwf. apply andb_true_iff in Hwf as [_ Hall].
      rewrite forallb_forall in Hall.
      assert (Hsplit : list_ascii_of_string (p ++ String newline "")
                       = list_ascii_of_string p ++ [newline]).
      { clear. induction p as [|a p IH]; simpl; [reflexivity | rewrite IH; reflexivity]. }
      rewrite Hsplit in Hin. apply in_app_or in Hin as [Hin | [<- | []]].
      + left. apply Hall, Hin.
      + right. reflexivity. }
  destruct Hc as [Hc | ->]; [apply safe_char_not_separator, Hc |].
  repeat split; discriminate.
Qed.

Lemma accepted_job_id_has_no_separator_witness :
  re_match_job_id "job_1700000000" = true /\
  In "_"%char (list_ascii_of_string "job_1700000000") /\
  "_"%char <> "/"%char.
Proof.
  assert (H1 : re_match_job_id "job_1700000000" = true) by reflexivity.
  assert (H2 : In "_"%char (list_ascii_of_string "job_1700000000"))
    by (simpl; tauto).
  split; [exact H1 |]. split; [exact H2 |].
  exact (proj1 (accepted_job_id_has_no_separator _ _ H1 H2)).
Defined.

(** X3. Every job identifier the front end makes (app.py, line 178) is
    well-formed and passes the check of the back end (line 170), whatever
    the clock reads. *)
Theorem front_end_job_id_accepted (seconds : Z) :
  job_id_wellformed (new_job_id seconds) = true /\
  re_match_job_id (new_job_id seconds) = true.
Proof.
  assert (Hwf : job_id_wellformed (new_job_id seconds) = true).
  { unfold job_id_wellformed, new_job_id. simpl. apply all_safe_pretty_Z. }
  split; [exact Hwf | apply wellformed_accepted, Hwf].
Qed.

(** ** The rate limiter over successive calls *)

Section Quota.

Variable cid : string.
Hypothesis cid_not_empty : cid <> "".
Hypothesis cid_not_anonymous : cid <> "anonymous".

Lemma valid_at_app (n : Q) (l1 l2 : list Q) :
  valid_at n (l1 ++ l2) = valid_at n l1 ++ valid_at n l2.
Proof. unfold valid_at. apply List.filter_app. Qed.

Lemma valid_at_now (n : Q) : valid_at n [n] = [n].
Proof.
  unfold valid_at. simpl.
  assert (H : Qlt_bool (n - n) 86400 = true) by (apply Qlt_bool_true; lra).
  rewrite H. reflexivity.
Qed.

Lemma rate_get_admitted (stamps : list Q) (evs : list Event) (w : World) :
  rate_get cid (set_rate (<[cid := stamps]> (rate_limiter w)) (emit_all evs w)) = stamps.
Proof. unfold rate_get. simpl. rewrite lookup_insert_eq. reflexivity. Qed.

(** The record of the client is, at any time, what is still valid of the
    stamps admitted so far. *)
Lemma admitted_stamps_window (envs : list Env) (w : World) (before : list Q) (m : Q) :
  rate_get cid w = valid_at m before ->
  Forall (fun env => (m <= now env)%Q) envs ->
  StronglySorted Qle (map now envs) ->
  forall k n,
    admitted_stamps cid envs w !! k = Some n ->
    (length (valid_at n (before ++ take (Datatypes.S k) (admitted_stamps cid envs w))) <= 3)%nat.
Proof.
  revert w before m. induction envs as [|env rest IH]; intros w before m Hrec Hle Hsorted k n.
  - simpl. rewrite lookup_nil. discriminate.
  - apply Forall_cons in Hle as [Hm Hle]. simpl in Hsorted.
    apply StronglySorted_inv in Hsorted as [Hsorted Hfirst].
    assert (Hvalid : valid_at (now env) (rate_get cid w) = valid_at (now env) before).
    { rewrite Hrec. apply valid_at_later, Hm. }
    assert (Hrest : Forall (fun env' => (now env <= now env')%Q) rest).
    { apply Forall_forall. intros env' Hin. rewrite Forall_forall in Hfirst.
      apply Hfirst. apply (proj2 (list_elem_of_In _ _)). apply in_map.
      apply (proj1 (list_elem_of_In _ _)), Hin. }
    simpl.
    destruct (Nat.lt_ge_cases (length (valid_at (now env) (rate_get cid w))) 3)
      as [Hlt | Hge].
    + rewrite (check_daily_limit_admitted env cid w cid_not_empty cid_not_anonymous Hlt).
      cbv zeta. rewrite !emit_as_emit_all, emit_all_emit_all.
      set (w1 := set_rate _ _).
      assert (Hrec1 : rate_get cid w1 = valid_at (now env) (before ++ [now env])).
      { unfold w1. rewrite rate_get_admitted, valid_at_app, valid_at_now, Hvalid.
        reflexivity. }
      destruct k as [|k]; cbn [firstn]; intros Hk.
      * injection Hk as <-.
        change (take 0 (admitted_stamps cid rest w1)) with (@nil Q).
        rewrite <- Hrec1. unfold w1.
        rewrite rate_get_admitted, length_app. simpl. lia.
      * change ((now env :: admitted_stamps cid rest w1) !! Datatypes.S k)
          with (admitted_stamps cid rest w1 !! k) in Hk.
        replace (before ++ now env :: take (Datatypes.S k) (admitted_stamps cid rest w1))
          with ((before ++ [now env]) ++ take (Datatypes.S k) (admitted_stamps cid rest w1))
          by (rewrite <- app_assoc; reflexivity).
        apply (IH w1 (before ++ [now env]) (now env) Hrec1 Hrest Hsorted k n Hk).
    + rewrite (check_daily_limit_denied env cid w cid_not_empty cid_not_anonymous Hge).
      apply (IH (emit (EvRateGet cid) w) before m); assumption.
Qed.

End Quota.

(** X4. A call of [check_daily_limit], admitted or not, for a metered client
    or not, leaves the record of every other client, the directories and the
    model cache as they were. *)
Theorem check_daily_limit_touches_one_record
    (S : Type) (env : Env) (client_id : jval) (w : World) :
  let w' := (@check_daily_limit S env client_id w).2 in
  (forall other, JStr other <> client_id ->
     rate_limiter w' !! other = rate_limiter w !! other) /\
  dirs w' = dirs w /\
  WHISPER_MODEL w' = WHISPER_MODEL w /\ ALIGN_MODEL w' = ALIGN_MODEL w /\
  DIARIZER w' = DIARIZER w /\ XTTS_MODEL w' = XTTS_MODEL w.
Proof.
  destruct client_id as [| cid]; [simpl; auto 10 |].
  destruct (decide (cid = "")) as [-> | Hne]; [simpl; auto 10 |].
  destruct (decide (cid = "anonymous")) as [-> | Hna]; [simpl; auto 10 |].
  destruct (Nat.lt_ge_cases (length (valid_at (now env) (rate_get cid w))) 3)
    as [Hlt | Hge].
  - rewrite (check_daily_limit_admitted env cid w Hne Hna Hlt). simpl.
    split; [| auto 10]. intros other Hother.
    apply lookup_insert_ne. congruence.
  - rewrite (check_daily_limit_denied env cid w Hne Hna Hge). simpl. auto 10.
Qed.

(** X5. When the clock does not go back and the record of a metered client
    starts empty, successive calls of [check_daily_limit] for that client
    never admit more than 3 calls in 86400 seconds: at every admitted call,
    at most 3 of the calls admitted so far, this one included, are less than
    86400 seconds old. *)
Theorem at_most_three_admissions_a_day
    (cid : string) (envs : list Env) (w : World) (k : nat) (n : Q) :
  cid <> "" -> cid <> "anonymous" ->
  rate_get cid w = [] ->
  StronglySorted Qle (map now envs) ->
  admitted_stamps cid envs w !! k = Some n ->
  (length (valid_at n (take (Datatypes.S k) (admitted_stamps cid envs w))) <= 3)%nat.
Proof.
  intros Hne Hna Hempty Hsorted Hk.
  destruct envs as [|env rest]; [simpl in Hk; rewrite lookup_nil in Hk; discriminate |].
  apply (admitted_stamps_window cid Hne Hna (env :: rest) w [] (now env)); try assumption.
  simpl in Hsorted. apply StronglySorted_inv in Hsorted as [_ Hfirst].
  constructor; [lra |].
  apply Forall_forall. intros env' Hin. rewrite Forall_forall in Hfirst.
  apply Hfirst. apply (proj2 (list_elem_of_In _ _)). apply in_map.
  apply (proj1 (list_elem_of_In _ _)), Hin.
Qed.

Lemma at_most_three_admissions_a_day_witness :
  "alice" <> "" /\ "alice" <> "anonymous" /\
  rate_get "alice" world0 = [] /\
  StronglySorted Qle (map now sample_calls) /\
  admitted_stamps "alice" sample_calls world0 = [100000; 101000; 102000; 190000]%Q /\
  (length (valid_at 190000 (take 4 (admitted_stamps "alice" sample_calls world0))) <= 3)%nat.
Proof.
  assert (H1 : "alice" <> "") by discriminate.
  assert (H2 : "alice" <> "anonymous") by discriminate.
  assert (H3 : rate_get "alice" world0 = []) by reflexivity.
  assert (H4 : StronglySorted Qle (map now sample_calls)).
  { simpl. repeat (constructor; [| repeat constructor; unfold Qle; simpl; lia]).
    constructor. }
  assert (H5 : admitted_stamps "alice" sample_calls world0
               = [100000; 101000; 102000; 190000]%Q) by (vm_compute; reflexivity).
  split; [exact H1 |]. split; [exact H2 |]. split; [exact H3 |]. split; [exact H4 |].
  split; [exact H5 |].
  apply (at_most_three_admissions_a_day "alice" sample_calls world0 3 190000 H1 H2 H3 H4).
  rewrite H5. reflexivity.
Defined.

Lemma check_daily_limit_touches_one_record_witness :
  JStr "unknown_user" <> JStr "alice" /\
  rate_limiter (@check_daily_limit Response env_ok (JStr "alice") world_used).2
    !! "unknown_user" = rate_limiter world_used !! "unknown_user".
Proof.
  assert (H : JStr "unknown_user" <> JStr "alice") by discriminate.
  split; [exact H |].
  exact (proj1 (check_daily_limit_touches_one_record Response env_ok (JStr "alice")
                  world_used) "unknown_user" H).
Defined.

(** ** The mean pitch and the frames *)

Section MeanPitch.











End MeanPitch.



(** ** Invariants and return paths of a computation *)

Section Guarantees.

Context {R : Type}.
Variable I : World -> Prop.
Variable G : R -> World -> Prop.
Hypothesis I_emit : forall e w, I w -> I (emit e w).

Lemma g_pure {A} (a : A) : guarantees I G (@pure R A a).
Proof. intros w Hw. exact Hw. Qed.

Lemma g_raise {A} (e : exn) : guarantees I G (@raise R A e).
Proof. intros w Hw. exact Hw. Qed.

Lemma g_return {A} (r : R) : (forall w, I w -> G r w) -> guarantees I G (@return_ R A r).
Proof. intros H w Hw. apply H, Hw. Qed.

Lemma g_call (e : Event) : guarantees I G (@call R e).
Proof. intros w Hw. apply I_emit, Hw. Qed.

Lemma g_modify (f : World -> World) :
  (forall w, I w -> I (f w)) -> guarantees I G (@modify R f).
Proof. intros H w Hw. apply H, Hw. Qed.

Lemma g_bind {A B} (m : M R A) (k : A -> M R B) :
  guarantees I G m -> (forall a, guarantees I G (k a)) -> guarantees I G (bind m k).
Proof.
  intros Hm Hk w Hw. unfold bind. specialize (Hm w Hw).
  destruct (m w) as [[a | r | e] w1]; [| exact Hm | exact Hm].
  apply Hk, Hm.
Qed.

Lemma g_bind_get_world {B} (k : World -> M R B) :
  (forall w0, I w0 -> guarantees I G (k w0)) -> guarantees I G (bind get_world k).
Proof. intros Hk w Hw. unfold bind, get_world. apply (Hk w Hw w Hw). Qed.

Lemma g_try_except {A} (body : M R A) (caught : exn -> bool) (handler : exn -> M R A) :
  guarantees I G body -> (forall e, guarantees I G (handler e)) ->
  guarantees I G (try_except body caught handler).
Proof.
  intros Hm Hk w Hw. unfold try_except. specialize (Hm w Hw).
  destruct (body w) as [[a | r | e] w1]; [exact Hm | exact Hm |].
  destruct (caught e); [apply Hk, Hm | exact Hm].
Qed.

Lemma g_external {A} (e : Event) (origin : string) (o : option A) :
  guarantees I G (@external R A e origin o).
Proof.
  unfold external. apply g_bind; [apply g_call |].
  intros _. destruct o; [apply g_pure | apply g_raise].
Qed.

(** [rmtree path ;; return r]: the response is returned in the world left by
    the removal. *)
Lemma g_rmtree_return {A} (path : string) (r : R) :
  (forall w, I w -> G r (set_dirs (filter (fun d => in_tree path d = false) (dirs w)) (emit (EvRmtree path) w))) ->
  guarantees I G (rmtree path ;; @return_ R A r).
Proof.
  intros H w Hw. unfold rmtree, bind, call, modify, return_. simpl. apply H, Hw.
Qed.

End Guarantees.

Lemma g_fn {R S} (I : World -> Prop) (G : S -> World -> Prop) (body : M R R) :
  guarantees I (fun _ => I) body -> guarantees I G (@fn R S body).
Proof.
  intros Hm w Hw. unfold fn. specialize (Hm w Hw).
  destruct (body w) as [[a | r | e] w1]; exact Hm.
Qed.

Lemma guarantees_handle (I : World -> Prop) (G : Response -> World -> Prop)
    (body : M Response Response) (w : World) :
  guarantees I G body -> never_continues body -> I w ->
  match handle body w with
  | (Returned r, w') => G r w'
  | (Raised _, w') => I w'
  end.
Proof.
  intros Hg Hn Hw. unfold handle. specialize (Hg w Hw). specialize (Hn w).
  destruct (body w) as [[a | r | e] w1]; [| exact Hg | exact Hg].
  exfalso. apply (Hn a w1). reflexivity.
Qed.

Lemma preserved_by_handle (I : World -> Prop) (body : M Response Response) (w : World) :
  guarantees I (fun _ => I) body -> I w -> I (handle body w).2.
Proof.
  intros Hg Hw. unfold handle. specialize (Hg w Hw).
  destruct (body w) as [[a | r | e] w1]; exact Hg.
Qed.

Lemma nc_bind {R A B} (m : M R A) (k : A -> M R B) :
  (forall a, never_continues (k a)) -> never_continues (bind m k).
Proof.
  intros Hk w b w' H. unfold bind in H.
  destruct (m w) as [[a | r | e] w1]; [| discriminate H | discriminate H].
  apply (Hk a w1 b w' H).
Qed.

Lemma nc_return {R A} (r : R) : never_continues (@return_ R A r).
Proof. intros w a w' H. discriminate H. Qed.

Lemma dub_video_body_never_continues (env : Env) (item : gmap string jval) :
  never_continues (dub_video_body env item).
Proof.
  unfold dub_video_body.
  repeat lazymatch goal with
         | |- never_continues (bind _ _) => apply nc_bind; intros ?
         | |- never_continues (return_ _) => apply nc_return
         | |- never_continues (let (_, _) := ?x in _) => destruct x
         end.
Qed.

(** One step of the analysis of a computation; [side] closes the conditions
    on the invariant. *)
Ltac guarantees_step side :=
  lazymatch goal with
  | |- guarantees _ _ (bind (pure ?a) ?k) =>
    change (bind (pure a) k) with (k a); cbv beta iota
  | |- guarantees _ _ (bind (rmtree _) (fun _ => return_ _)) =>
    apply g_rmtree_return; side
  | |- guarantees _ _ (bind get_world _) =>
    apply g_bind_get_world; intros ? ?
  | |- guarantees _ _ (bind _ _) => apply g_bind; [| intros ?]
  | |- guarantees _ _ (pure _) => apply g_pure
  | |- guarantees _ _ (return_ _) => apply g_return; side
  | |- guarantees _ _ (raise _) => apply g_raise
  | |- guarantees _ _ (call _) => apply g_call; side
  | |- guarantees _ _ (external _ _ _) => apply g_external; side
  | |- guarantees _ _ (modify _) => apply g_modify; side
  | |- guarantees _ _ (try_except _ _ _) => apply g_try_except; [| intros ?]
  | |- guarantees _ _ (fn _) => apply g_fn
  | |- guarantees _ _ (match ?x with _ => _ end) => destruct x eqn:?; try congruence
  end.

Section Loops.

Variable env : Env.
Variable I : World -> Prop.
Variable G : Response -> World -> Prop.
Hypothesis I_emit : forall e w, I w -> I (emit e w).

Lemma I_emit_all (evs : list Event) (w : World) : I w -> I (emit_all evs w).
Proof.
  intros Hw. induction evs as [|e evs IH] using rev_ind.
  - rewrite emit_all_nil. exact Hw.
  - rewrite <- emit_emit_all. apply I_emit, IH.
Qed.

Lemma g_translate_loop (target : string) (i : nat) (segs : list Segment) :
  guarantees I G (translate_loop env target i segs).
Proof. intros w Hw. rewrite translate_loop_run. apply I_emit_all, Hw. Qed.

Lemma g_xtts_loop (vocals target : string) (i : nat) (segs : list Segment)
    (combined : list Q) :
  guarantees I G (xtts_loop env vocals target i segs combined).
Proof. intros w Hw. rewrite xtts_loop_run. apply I_emit_all, Hw. Qed.

Lemma g_edge_loop (job_dir voice : string) (i : nat) (segs : list Segment)
    (combined : list Q) :
  guarantees I G (edge_loop env job_dir voice i segs combined).
Proof. intros w Hw. rewrite edge_loop_run. apply I_emit_all, Hw. Qed.

End Loops.

(** The analysis of [dub_video_body], the invariant being closed under the
    conditions [side] proves. *)
Ltac guarantees_auto side :=
  repeat first
    [ apply g_translate_loop; side
    | apply g_xtts_loop; side
    | apply g_edge_loop; side
    | guarantees_step side ].

Ltac unfold_stages :=
  unfold dub_video_body, item_index, security_checks, check_daily_limit, makedirs_,
    download_video, extract_audio, separate_vocals, transcription, translation,
    synthesis, detect_gender, select_voice, mixing, upload.

Ltac invariant_side := intros; cbv beta in *; assumption.

(** The analysis of a computation whose invariant is kept by the calls of
    a class [P] only. *)
Section GuaranteesOn.

Context {R : Type}.
Variable I : World -> Prop.
Variable G : R -> World -> Prop.
Variable P : Event -> Prop.
Hypothesis I_emit_on : forall e w, P e -> I w -> I (emit e w).

Lemma g_call_on (e : Event) : P e -> guarantees I G (@call R e).
Proof. intros He w Hw. apply I_emit_on; assumption. Qed.

Lemma g_external_on {A} (e : Event) (origin : string) (o : option A) :
  P e -> guarantees I G (@external R A e origin o).
Proof.
  intros He. unfold external. apply g_bind; [apply g_call_on, He |].
  intros _. destruct o; [apply g_pure | apply g_raise].
Qed.

Lemma I_emit_all_on (evs : list Event) (w : World) :
  Forall P evs -> I w -> I (emit_all evs w).
Proof.
  intros Hevs Hw. induction evs as [|e evs IH] using rev_ind.
  - rewrite emit_all_nil. exact Hw.
  - apply Forall_app in Hevs as [Hevs He]. inversion He; subst.
    rewrite <- emit_emit_all. apply I_emit_on; [assumption | apply IH, Hevs].
Qed.

End GuaranteesOn.

Section LoopsOn.

Variable env : Env.
Variable I : World -> Prop.
Variable G : Response -> World -> Prop.
Variable P : Event -> Prop.
Hypothesis I_emit_on : forall e w, P e -> I w -> I (emit e w).

Lemma g_translate_loop_on (target : string) (i : nat) (segs : list Segment) :
  (forall s, P (EvTranslate target s)) ->
  guarantees I G (translate_loop env target i segs).
Proof.
  intros HP w Hw. rewrite translate_loop_run.
  apply (I_emit_all_on I P I_emit_on); [| exact Hw].
  apply Forall_map, Forall_forall. intros seg _. apply HP.
Qed.

Lemma g_xtts_loop_on (vocals target : string) (i : nat) (segs : list Segment)
    (combined : list Q) :
  (forall s, P (EvXTTS s vocals target)) ->
  guarantees I G (xtts_loop env vocals target i segs combined).
Proof.
  intros HP w Hw. rewrite xtts_loop_run.
  apply (I_emit_all_on I P I_emit_on); [| exact Hw].
  apply Forall_map, Forall_forall. intros c _. apply HP.
Qed.

Lemma g_edge_loop_on (job_dir voice : string) (i : nat) (segs : list Segment)
    (combined : list Q) :
  (forall s f, P (EvEdgeTTS s voice f)) ->
  guarantees I G (edge_loop env job_dir voice i segs combined).
Proof.
  intros HP w Hw. rewrite edge_loop_run.
  apply (I_emit_all_on I P I_emit_on); [| exact Hw].
  apply Forall_map, Forall_forall. intros c _. apply HP.
Qed.

End LoopsOn.

Lemma no_load_since_start (loads : Event -> bool) (w : World) :
  no_load_since loads (trace w) w.
Proof. exists []. split; [symmetry; apply app_nil_r | constructor]. Qed.

Lemma no_load_since_step (loads : Event -> bool) (before : list Event)
    (w w' : World) (e : Event) :
  no_load_since loads before w -> trace w' = trace w ++ [e] -> loads e = false ->
  no_load_since loads before w'.
Proof.
  intros (evs & Ht & Hq) Ht' He. exists (evs ++ [e]). split.
  - rewrite Ht', Ht, app_assoc. reflexivity.
  - apply Forall_app. split; [exact Hq | repeat constructor; exact He].
Qed.

(** One step of the analysis; [HI] says that the invariant is kept by the
    calls that load nothing of the cell. *)
Ltac cache_side :=
  intros; cbv beta in *;
  first [ assumption
        | match goal with
          | H : _ /\ no_load_since _ _ _ |- _ /\ no_load_since _ _ _ =>
            destruct H as [? ?]; split;
            [ assumption
            | eapply no_load_since_step; [eassumption | reflexivity | reflexivity] ]
          end ].

Ltac cache_step HI :=
  lazymatch goal with
  | |- guarantees _ _ (bind (pure ?a) ?k) =>
    change (bind (pure a) k) with (k a); cbv beta iota
  | |- guarantees _ _ (bind (rmtree _) (fun _ => return_ _)) =>
    apply g_rmtree_return; cache_side
  | |- guarantees _ _ (bind get_world _) =>
    apply g_bind_get_world; intros ? [? ?]
  | |- guarantees _ _ (bind _ _) => apply g_bind; [| intros ?]
  | |- guarantees _ _ (pure _) => apply g_pure
  | |- guarantees _ _ (return_ _) => apply g_return; cache_side
  | |- guarantees _ _ (raise _) => apply g_raise
  | |- guarantees _ _ (call _) => apply (g_call_on _ _ _ HI); reflexivity
  | |- guarantees _ _ (external _ _ _) => apply (g_external_on _ _ _ HI); reflexivity
  | |- guarantees _ _ (modify _) => apply g_modify; cache_side
  | |- guarantees _ _ (try_except _ _ _) => apply g_try_except; [| intros ?]
  | |- guarantees _ _ (fn _) => apply g_fn
  | |- guarantees _ _ (match ?x with _ => _ end) => destruct x eqn:?; try congruence
  end.

Ltac cache_auto HI :=
  repeat first
    [ apply (g_translate_loop_on _ _ _ _ HI); intros; reflexivity
    | apply (g_xtts_loop_on _ _ _ _ HI); intros; reflexivity
    | apply (g_edge_loop_on _ _ _ _ HI); intros; reflexivity
    | cache_step HI ].

Section ModelCache.

Variable env : Env.
Variable item : gmap string jval.
Variable before : list Event.

Lemma recognizer_reused :
  guarantees
    (fun w => WHISPER_MODEL w = Some tt /\ no_load_since loads_recognizer before w)
    (fun _ w => WHISPER_MODEL w = Some tt /\ no_load_since loads_recognizer before w)
    (dub_video_body env item).
Proof.
  assert (HI : forall e w, (fun e => loads_recognizer e = false) e ->
                 WHISPER_MODEL w = Some tt /\ no_load_since loads_recognizer before w ->
                 WHISPER_MODEL (emit e w) = Some tt /\
                 no_load_since loads_recognizer before (emit e w)).
  { intros e w He [Hc Hs]. split; [exact Hc |].
    apply (no_load_since_step _ _ w (emit e w) e Hs eq_refl He). }
  unfold_stages. cache_auto HI.
Qed.

Lemma alignment_model_reused (l : string) :
  guarantees
    (fun w => ALIGN_MODEL w = Some l /\ no_load_since loads_alignment before w)
    (fun _ w => ALIGN_MODEL w = Some l /\ no_load_since loads_alignment before w)
    (dub_video_body env item).
Proof.
  assert (HI : forall e w, (fun e => loads_alignment e = false) e ->
                 ALIGN_MODEL w = Some l /\ no_load_since loads_alignment before w ->
                 ALIGN_MODEL (emit e w) = Some l /\
                 no_load_since loads_alignment before (emit e w)).
  { intros e w He [Hc Hs]. split; [exact Hc |].
    apply (no_load_since_step _ _ w (emit e w) e Hs eq_refl He). }
  unfold_stages. cache_auto HI.
Qed.

Lemma diarizer_reused :
  guarantees
    (fun w => DIARIZER w = Some tt /\ no_load_since loads_diarizer before w)
    (fun _ w => DIARIZER w = Some tt /\ no_load_since loads_diarizer before w)
    (dub_video_body env item).
Proof.
  assert (HI : forall e w, (fun e => loads_diarizer e = false) e ->
                 DIARIZER w = Some tt /\ no_load_since loads_diarizer before w ->
                 DIARIZER (emit e w) = Some tt /\
                 no_load_since loads_diarizer before (emit e w)).
  { intros e w He [Hc Hs]. split; [exact Hc |].
    apply (no_load_since_step _ _ w (emit e w) e Hs eq_refl He). }
  unfold_stages. cache_auto HI.
Qed.

Lemma synthesizer_reused :
  guarantees
    (fun w => XTTS_MODEL w = Some tt /\ no_load_since loads_synthesizer before w)
    (fun _ w => XTTS_MODEL w = Some tt /\ no_load_since loads_synthesizer before w)
    (dub_video_body env item).
Proof.
  assert (HI : forall e w, (fun e => loads_synthesizer e = false) e ->
                 XTTS_MODEL w = Some tt /\ no_load_since loads_synthesizer before w ->
                 XTTS_MODEL (emit e w) = Some tt /\
                 no_load_since loads_synthesizer before (emit e w)).
  { intros e w He [Hc Hs]. split; [exact Hc |].
    apply (no_load_since_step _ _ w (emit e w) e Hs eq_refl He). }
  unfold_stages. cache_auto HI.
Qed.

End ModelCache.

(** X7. A model that is in the cache of the worker when [dub_video] starts
    is in the cache when it ends, whether the job returns or raises, and the
    job makes no call that loads it: a cached recognizer, alignment model
    (whatever language it was loaded for), diarizer or cloning synthesizer
    is neither dropped nor loaded again. *)
Theorem cached_models_kept_and_not_reloaded
    (env : Env) (item : gmap string jval) (w : World) :
  let w' := (dub_video env item w).2 in
  (WHISPER_MODEL w = Some tt ->
   WHISPER_MODEL w' = Some tt /\ no_load_since loads_recognizer (trace w) w') /\
  (forall l, ALIGN_MODEL w = Some l ->
   ALIGN_MODEL w' = Some l /\ no_load_since loads_alignment (trace w) w') /\
  (DIARIZER w = Some tt ->
   DIARIZER w' = Some tt /\ no_load_since loads_diarizer (trace w) w') /\
  (XTTS_MODEL w = Some tt ->
   XTTS_MODEL w' = Some tt /\ no_load_since loads_synthesizer (trace w) w').
Proof.
  unfold dub_video. split; [| split; [| split]].
  - intros H.
    apply (preserved_by_handle _ _ w (recognizer_reused env item (trace w))).
    split; [exact H | apply no_load_since_start].
  - intros l H.
    apply (preserved_by_handle _ _ w (alignment_model_reused env item (trace w) l)).
    split; [exact H | apply no_load_since_start].
  - intros H.
    apply (preserved_by_handle _ _ w (diarizer_reused env item (trace w))).
    split; [exact H | apply no_load_since_start].
  - intros H.
    apply (preserved_by_handle _ _ w (synthesizer_reused env item (trace w))).
    split; [exact H | apply no_load_since_start].
Qed.

Lemma cached_models_kept_and_not_reloaded_witness :
  let w1 := (dub_video env_ok sample_request world0).2 in
  let w2 := (dub_video env_french second_request w1).2 in
  WHISPER_MODEL w1 = Some tt /\
  WHISPER_MODEL w2 = Some tt /\
  exists evs, trace w2 = trace w1 ++ evs /\
              Forall (fun e => loads_recognizer e = false) evs.
Proof.
  intros w1 w2.
  assert (H : WHISPER_MODEL w1 = Some tt) by (vm_compute; reflexivity).
  split; [exact H |].
  exact (proj1 (cached_models_kept_and_not_reloaded env_french second_request w1) H).
Defined.

Section Directories.

Lemma append_cons (c : ascii) (a b : string) :
  (String c a ++ b)%string = String c (a ++ b).
Proof. reflexivity. Qed.

Lemma append_nil_l (a : string) : ("" ++ a)%string = a.
Proof. reflexivity. Qed.

Lemma append_nil_r (a : string) : (a ++ "")%string = a.
Proof.
  induction a as [|c a IH]; [reflexivity |].
  rewrite append_cons, IH. reflexivity.
Qed.

Lemma append_assoc (a b c : string) : ((a ++ b) ++ c)%string = (a ++ (b ++ c))%string.
Proof.
  induction a as [|x a IH]; [reflexivity |].
  rewrite !append_cons, IH. reflexivity.
Qed.

Lemma prefix_nil (u : string) : String.prefix "" u = true.
Proof. destruct u; reflexivity. Qed.

Lemma prefix_cons (a b : ascii) (p u : string) :
  String.prefix (String a p) (String b u) =
  if ascii_dec a b then String.prefix p u else false.
Proof. reflexivity. Qed.

Lemma prefix_append (a b : string) : String.prefix a (a ++ b)%string = true.
Proof.
  induction a as [|c a IH].
  - apply prefix_nil.
  - rewrite append_cons, prefix_cons. destruct (ascii_dec c c); [exact IH | congruence].
Qed.

(** Two directories above or at the same path lie one above the other. *)
Lemma separators_comparable (a b x y : string) :
  (a ++ String "/" x)%string = (b ++ String "/" y)%string ->
  a = b \/ String.prefix (a ++ "/") b = true \/ String.prefix (b ++ "/") a = true.
Proof.
  revert b. induction a as [|c a IH]; intros [|d b];
    rewrite ?append_cons, ?append_nil_l; intros H.
  - left. reflexivity.
  - injection H as <- _. right. left. rewrite ?append_nil_l, ?append_cons, prefix_cons.
    destruct (ascii_dec "/" "/"); [apply prefix_nil | congruence].
  - injection H as -> _. right. right. rewrite ?append_nil_l, ?append_cons, prefix_cons.
    destruct (ascii_dec "/" "/"); [apply prefix_nil | congruence].
  - injection H as <- H. destruct (IH b H) as [-> | [Hp | Hp]].
    + left. reflexivity.
    + right. left. rewrite ?append_nil_l, ?append_cons, prefix_cons.
      destruct (ascii_dec c c); [exact Hp | congruence].
    + right. right. rewrite ?append_nil_l, ?append_cons, prefix_cons.
      destruct (ascii_dec c c); [exact Hp | congruence].
Qed.

Lemma path_prefixes_spec (done rest a : string) :
  a ∈ path_prefixes done rest ->
  a = (done ++ rest)%string \/
  exists r1 r2, rest = (r1 ++ String "/" r2)%string /\ a = (done ++ r1)%string.
Proof.
  revert done. induction rest as [|c rest IH]; intros done; simpl path_prefixes.
  - intros H. apply list_elem_of_singleton in H as ->. left.
    symmetry. apply append_nil_r.
  - intros H. apply elem_of_app in H as [H | H].
    + destruct (Ascii.eqb_spec c "/") as [-> |]; [| inversion H].
      apply list_elem_of_singleton in H as ->. right.
      exists "", rest. split; [reflexivity | symmetry; apply append_nil_r].
    + destruct (IH _ H) as [-> | (r1 & r2 & -> & ->)].
      * left. apply append_assoc.
      * right. exists (String c r1), r2. split; [reflexivity | apply append_assoc].
Qed.

(** What [mkdir -p path] creates is [path] or lies above it. *)
Lemma with_parents_above (path a : string) :
  a ∈ with_parents path ->
  a = path \/ String.prefix (a ++ "/") path = true.
Proof.
  unfold with_parents. intros H.
  apply list_elem_of_In, filter_In in H as [H _].
  apply list_elem_of_In, path_prefixes_spec in H as [-> | (r1 & r2 & -> & ->)].
  - left. reflexivity.
  - right. rewrite !append_nil_l. change (String "/" r2) with ("/" ++ r2)%string.
    rewrite <- append_assoc. apply prefix_append.
Qed.

(** What [mkdir -p] creates for a path below [dir] is [dir], lies above it or
    lies below it. *)
Lemma with_parents_below (dir sub a : string) :
  a ∈ with_parents (dir ++ "/" ++ sub)%string ->
  a = dir \/ String.prefix (a ++ "/") dir = true \/ String.prefix (dir ++ "/") a = true.
Proof.
  unfold with_parents. intros H.
  apply list_elem_of_In, filter_In in H as [H _].
  apply list_elem_of_In, path_prefixes_spec in H as [-> | (r1 & r2 & Heq & ->)].
  - right. right. rewrite append_nil_l, <- append_assoc. apply prefix_append.
  - rewrite append_nil_l. change ("/" ++ sub)%string with (String "/" sub) in Heq.
    symmetry in Heq. apply separators_comparable in Heq. exact Heq.
Qed.

(** What demucs creates lies below the job directory. *)
Lemma demucs_created_below (env : Env) (dir a : string) :
  a ∈ demucs_created env (dir ++ "/separated") ->
  a = dir \/ String.prefix (a ++ "/") dir = true \/ String.prefix (dir ++ "/") a = true.
Proof.
  unfold demucs_created. intros H.
  apply list_elem_of_In, in_concat in H as (l & Hl & Ha).
  apply in_map_iff in Hl as (d & <- & _).
  apply list_elem_of_In in Ha.
  apply (with_parents_below dir ("separated" ++ "/" ++ d)).
  rewrite append_assoc in Ha. exact Ha.
Qed.

Lemma kept_after_union (made : list string) (X : gset string) (p : string)
    (present : Prop) :
  p ∉ made -> (p ∈ X <-> present) -> (p ∈ list_to_set made ∪ X <-> present).
Proof.
  intros Hp <-. rewrite elem_of_union, elem_of_list_to_set. tauto.
Qed.

Lemma kept_after_rmtree (dir : string) (X : gset string) (p : string)
    (present : Prop) :
  in_tree dir p = false -> (p ∈ X <-> present) ->
  (p ∈ filter (fun d => in_tree dir d = false) X <-> present).
Proof.
  intros Hp <-. rewrite elem_of_filter. tauto.
Qed.

Variable env : Env.
Variable item : gmap string jval.
Variables j p : string.

Hypothesis job_id_of_item : item !! "job_id" = Some (JStr j).
Hypothesis other : p <> (BASE_DIR ++ "/" ++ j)%string.
Hypothesis not_below : String.prefix ((BASE_DIR ++ "/" ++ j) ++ "/") p = false.
Hypothesis not_above : String.prefix (p ++ "/") (BASE_DIR ++ "/" ++ j) = false.

Lemma outside_not_in_tree : in_tree (BASE_DIR ++ "/" ++ j) p = false.
Proof.
  unfold in_tree. rewrite not_below, orb_false_r. apply String.eqb_neq, other.
Qed.

Lemma outside_not_made : p ∉ with_parents (BASE_DIR ++ "/" ++ j).
Proof.
  intros H. apply with_parents_above in H as [H | H]; [exact (other H) |].
  rewrite not_above in H. discriminate.
Qed.

Lemma outside_not_separated :
  p ∉ demucs_created env ((BASE_DIR ++ "/" ++ j) ++ "/separated").
Proof.
  intros H. apply demucs_created_below in H as [H | [H | H]].
  - exact (other H).
  - rewrite not_above in H. discriminate.
  - rewrite not_below in H. discriminate.
Qed.

(** Whether a directory outside the tree of the job exists is not changed
    by any step of [dub_video]. *)
Lemma dirs_outside_job_tree_kept (present : Prop) :
  guarantees (fun w => p ∈ dirs w <-> present)
             (fun _ w => p ∈ dirs w <-> present)
             (dub_video_body env item).
Proof.
  unfold_stages. rewrite job_id_of_item.
  guarantees_auto ltac:(intros; cbv beta in *; unfold set_dirs, emit; cbn [dirs str_of];
    first [ assumption
          | apply kept_after_rmtree; [apply outside_not_in_tree | assumption]
          | apply kept_after_union; [apply outside_not_made | assumption]
          | apply kept_after_union; [apply outside_not_separated | assumption] ]).
Qed.

End Directories.

(** X8. Of the directories of the jobs area, [dub_video] creates and removes
    none outside the tree of its own job directory: a path under [BASE_DIR]
    that is not the job directory, does not lie below it and does not lie
    above it is a directory after the job, returned or raised, exactly if it
    was one before. (What the job creates is its directory with the missing
    directories above it, and what demucs makes below it; what it removes is
    its directory with everything below.) *)
Theorem other_directories_untouched
    (env : Env) (item : gmap string jval) (w : World) (j p : string) :
  item !! "job_id" = Some (JStr j) ->
  String.prefix (BASE_DIR ++ "/") p = true ->
  p <> (BASE_DIR ++ "/" ++ j)%string ->
  String.prefix ((BASE_DIR ++ "/" ++ j) ++ "/") p = false ->
  String.prefix (p ++ "/") (BASE_DIR ++ "/" ++ j) = false ->
  (p ∈ dirs (dub_video env item w).2 <-> p ∈ dirs w).
Proof.
  intros Hj _ Hp Hbelow Habove.
  exact (preserved_by_handle (fun w' => p ∈ dirs w' <-> p ∈ dirs w)
           (dub_video_body env item) w
           (dirs_outside_job_tree_kept env item j p Hj Hp Hbelow Habove _)
           (iff_refl _)).
Qed.

Lemma other_directories_untouched_witness :
  let w1 := (dub_video env_fetch_fails second_request world0).2 in
  let w2 := (dub_video env_ok sample_request w1).2 in
  sample_request !! "job_id" = Some (JStr "job_1700000000") /\
  "/data/dubbing/job_1700000060" ∈ dirs w1 /\
  "/data/dubbing/job_1700000060" ∈ dirs w2 /\
  "/data/dubbing/job_1700000000" ∉ dirs w2.
Proof.
  intros w1 w2.
  assert (H1 : sample_request !! "job_id" = Some (JStr "job_1700000000"))
    by (vm_compute; reflexivity).
  assert (H2 : String.prefix (BASE_DIR ++ "/") "/data/dubbing/job_1700000060" = true)
    by (vm_compute; reflexivity).
  assert (H3 : "/data/dubbing/job_1700000060"
               <> (BASE_DIR ++ "/" ++ "job_1700000000")%string) by discriminate.
  assert (H4 : String.prefix ((BASE_DIR ++ "/" ++ "job_1700000000") ++ "/")
                             "/data/dubbing/job_1700000060" = false)
    by (vm_compute; reflexivity).
  assert (H5 : String.prefix ("/data/dubbing/job_1700000060" ++ "/")
                             (BASE_DIR ++ "/" ++ "job_1700000000") = false)
    by (vm_compute; reflexivity).
  assert (H6 : "/data/dubbing/job_1700000060" ∈ dirs w1)
    by (apply (bool_decide_unpack _); vm_compute; reflexivity).
  split; [exact H1 |]. split; [exact H6 |]. split.
  - apply (other_directories_untouched env_ok _ w1 _ _ H1 H2 H3 H4 H5). exact H6.
  - apply (bool_decide_unpack _). vm_compute. reflexivity.
Defined.

Section RateStore.

Lemma other_records_kept (env : Env) (item : gmap string jval) (other : string)
    (v : option (list Q)) :
  JStr other <> item_get item "client_id" "unknown_user" ->
  guarantees (fun w => rate_limiter w !! other = v)
             (fun _ w => rate_limiter w !! other = v)
             (dub_video_body env item).
Proof.
  intros Hother. unfold_stages.
  guarantees_auto ltac:(intros; cbv beta in *; simpl;
                        rewrite ?lookup_insert_ne by congruence; assumption).
Qed.

End RateStore.

(** X9. The only record of the rate-limit store a job can change is the
    record of the client of the request ("unknown_user" when the request
    names none): the record of every other client is after the job, returned
    or raised, what it was before. *)
Theorem other_clients_records_untouched
    (env : Env) (item : gmap string jval) (w : World) (other : string) :
  JStr other <> item_get item "client_id" "unknown_user" ->
  rate_limiter (dub_video env item w).2 !! other = rate_limiter w !! other.
Proof.
  intros Hother.
  apply (preserved_by_handle
           (fun w' => rate_limiter w' !! other = rate_limiter w !! other)
           (dub_video_body env item) w
           (other_records_kept env item other _ Hother) eq_refl).
Qed.

Lemma other_clients_records_untouched_witness :
  JStr "alice" <> item_get sample_request "client_id" "unknown_user" /\
  rate_limiter (dub_video env_ok sample_request world_used).2 !! "alice"
    = rate_limiter world_used !! "alice".
Proof.
  assert (H : JStr "alice" <> item_get sample_request "client_id" "unknown_user")
    by (vm_compute; discriminate).
  split; [exact H |].
  exact (other_clients_records_untouched env_ok sample_request world_used "alice" H).
Defined.

Section ReturnPaths.

Variable env : Env.

Lemma returns_after_cleanup (item : gmap string jval) (j : string) :
  item !! "job_id" = Some (JStr j) ->
  guarantees (fun _ => True)
             (fun r w => early_rejection r \/ (BASE_DIR ++ "/" ++ j)%string ∉ dirs w)
             (dub_video_body env item).
Proof.
  intros Hj. unfold_stages. rewrite Hj.
  guarantees_auto ltac:(intros; cbv beta;
    first [ exact Logic.I
          | left; unfold early_rejection; solve [auto]
          | right; simpl; apply not_in_removed_tree ]).
Qed.

(** From the mixing on: what is returned, and after what. *)
Lemma g_dub_from_mixing (G : Response -> World -> Prop) (job_id job_dir bg : string) :
  (forall w, G (RespError "Mixing failed") w) ->
  (forall url w,
     ffmpeg_run env (mix_graph (video_path job_dir) (dubbed_audio job_dir) bg
                               (final_video job_dir)) = None ->
     upload_file env (final_video job_dir) ("dubbed/" ++ job_id ++ ".mp4")%string = Some tt ->
     generate_presigned_url env ("dubbed/" ++ job_id ++ ".mp4")%string = Some url ->
     G (RespSuccess url) w) ->
  guarantees (fun _ => True) G (dub_from_mixing env job_id job_dir bg).
Proof.
  intros Hfail Hok w _.
  unfold dub_from_mixing, dub_from_upload, mixing, upload, rmtree, external,
    try_except, bind, call, modify, pure, return_, raise.
  destruct (ffmpeg_run env _) as [[] |] eqn:Hmix; simpl; auto.
  destruct (upload_file env _ _) as [[] |] eqn:Hup; simpl; auto.
  destruct (generate_presigned_url env _) as [url |] eqn:Hurl; simpl; auto.
Qed.

Lemma returned_responses (item : gmap string jval) (j : string) :
  item !! "job_id" = Some (JStr j) ->
  guarantees (fun _ => True)
    (fun r _ =>
       match r with
       | RespError message => In message error_messages
       | RespSuccess url =>
         let job_dir := (BASE_DIR ++ "/" ++ j)%string in
         (exists bg, ffmpeg_run env (mix_graph (video_path job_dir) (dubbed_audio job_dir)
                                               bg (final_video job_dir)) = None) /\
         upload_file env (final_video job_dir) ("dubbed/" ++ j ++ ".mp4")%string = Some tt /\
         generate_presigned_url env ("dubbed/" ++ j ++ ".mp4")%string = Some url
       end)
    (dub_video_body env item).
Proof.
  intros Hj.
  unfold dub_video_body, item_index, security_checks, check_daily_limit, makedirs_,
    download_video, extract_audio, separate_vocals, transcription, translation,
    synthesis, detect_gender, select_voice.
  rewrite Hj.
  repeat first
    [ lazymatch goal with
      | |- guarantees _ _ (bind (mixing _ _ _ _ ?bg _) _) =>
        apply (g_dub_from_mixing _ j (BASE_DIR ++ "/" ++ j)%string bg);
        [ intros; simpl; tauto | intros url ? Hmix Hup Hurl; cbv zeta; eauto ]
      end
    | apply g_translate_loop; intros; exact Logic.I
    | apply g_xtts_loop; intros; exact Logic.I
    | apply g_edge_loop; intros; exact Logic.I
    | guarantees_step ltac:(intros; cbv beta; first [exact Logic.I | simpl; tauto]) ].
Qed.

End ReturnPaths.

(** X10. Every result [dub_video] returns, other than the three rejections
    made before the job directory exists (invalid job identifier, invalid
    scheme, daily limit), is returned after the job directory has been
    removed. *)
Theorem returns_leave_no_job_dir
    (env : Env) (item : gmap string jval) (w w' : World) (j : string) (r : Response) :
  item !! "job_id" = Some (JStr j) ->
  dub_video env item w = (Returned r, w') ->
  early_rejection r \/ (BASE_DIR ++ "/" ++ j)%string ∉ dirs w'.
Proof.
  intros Hj Hrun.
  pose proof (guarantees_handle (fun _ => True) _ (dub_video_body env item) w
                (returns_after_cleanup env item j Hj)
                (dub_video_body_never_continues env item) Logic.I) as H.
  fold (dub_video env item w) in H. rewrite Hrun in H. exact H.
Qed.

Lemma returns_leave_no_job_dir_witness :
  sample_request !! "job_id" = Some (JStr "job_1700000000") /\
  dub_video env_no_vocals sample_request world0 =
    (Returned (RespError "Demucs failed"),
     (dub_video env_no_vocals sample_request world0).2) /\
  (early_rejection (RespError "Demucs failed") \/
   (BASE_DIR ++ "/" ++ "job_1700000000")%string
     ∉ dirs (dub_video env_no_vocals sample_request world0).2).
Proof.
  assert (H1 : sample_request !! "job_id" = Some (JStr "job_1700000000"))
    by (vm_compute; reflexivity).
  assert (H2 : dub_video env_no_vocals sample_request world0 =
               (Returned (RespError "Demucs failed"),
                (dub_video env_no_vocals sample_request world0).2))
    by (vm_compute; reflexivity).
  split; [exact H1 |]. split; [exact H2 |].
  exact (returns_leave_no_job_dir env_no_vocals _ world0 _ _ _ H1 H2).
Defined.

(** X11. An error result of [dub_video] carries one of five messages; a
    success result is returned only after the ffmpeg run, the upload of the
    final video under the key [dubbed/<job_id>.mp4] and the signing of that
    key have all succeeded, and its locator is the signed locator. *)
Theorem responses_of_dub_video
    (env : Env) (item : gmap string jval) (w w' : World) (j : string) (r : Response) :
  item !! "job_id" = Some (JStr j) ->
  dub_video env item w = (Returned r, w') ->
  match r with
  | RespError message => In message error_messages
  | RespSuccess url =>
    let job_dir := (BASE_DIR ++ "/" ++ j)%string in
    (exists bg, ffmpeg_run env (mix_graph (video_path job_dir) (dubbed_audio job_dir)
                                          bg (final_video job_dir)) = None) /\
    upload_file env (final_video job_dir) ("dubbed/" ++ j ++ ".mp4")%string = Some tt /\
    generate_presigned_url env ("dubbed/" ++ j ++ ".mp4")%string = Some url
  end.
Proof.
  intros Hj Hrun.
  pose proof (guarantees_handle (fun _ => True) _ (dub_video_body env item) w
                (returned_responses env item j Hj)
                (dub_video_body_never_continues env item) Logic.I) as H.
  fold (dub_video env item w) in H. rewrite Hrun in H. exact H.
Qed.

Lemma responses_of_dub_video_witness :
  sample_request !! "job_id" = Some (JStr "job_1700000000") /\
  dub_video env_ok sample_request world0 =
    (Returned (RespSuccess "https://r2.example/dubbed/job_1700000000.mp4"),
     (dub_video env_ok sample_request world0).2) /\
  generate_presigned_url env_ok ("dubbed/" ++ "job_1700000000" ++ ".mp4")%string
    = Some "https://r2.example/dubbed/job_1700000000.mp4".
Proof.
  assert (H1 : sample_request !! "job_id" = Some (JStr "job_1700000000"))
    by (vm_compute; reflexivity).
  assert (H2 : dub_video env_ok sample_request world0 =
               (Returned (RespSuccess "https://r2.example/dubbed/job_1700000000.mp4"),
                (dub_video env_ok sample_request world0).2))
    by (vm_compute; reflexivity).
  split; [exact H1 |]. split; [exact H2 |].
  exact (proj2 (proj2 (responses_of_dub_video env_ok _ world0 _ _ _ H1 H2))).
Defined.

(** X12. A request that passes the entry checks and is refused by the rate
    limiter costs one read of the store and nothing else: no write to the
    store, no directory, no fetch, no model load. *)
Theorem refused_request_allocates_nothing
    (env : Env) (item : gmap string jval) (w : World) (j u cid : string) :
  item !! "job_id" = Some (JStr j) ->
  item !! "video_url" = Some (JStr u) ->
  re_match_job_id j = true ->
  String.prefix "http://" u || String.prefix "https://" u = true ->
  item_get item "client_id" "unknown_user" = JStr cid ->
  cid <> "" -> cid <> "anonymous" ->
  (3 <= length (valid_at (now env) (rate_get cid w)))%nat ->
  dub_video env item w =
    (Returned (RespError "Daily limit reached (3/3). Please try again in 24 hours."),
     emit (EvRateGet cid) w).
Proof.
  intros Hj Hu Hm Hp Hc Hne Hna Hfull.
  unfold dub_video, handle, dub_video_body, item_index.
  rewrite Hj, Hu, Hc. unfold bind at 1 2. unfold pure at 1 2.
  unfold bind at 1. rewrite (security_checks_pass j u w Hm Hp).
  unfold bind at 1. rewrite (check_daily_limit_denied env cid w Hne Hna Hfull).
  reflexivity.
Qed.

Lemma refused_request_allocates_nothing_witness :
  sample_request !! "job_id" = Some (JStr "job_1700000000") /\
  dub_video env_ok sample_request world_used =
    (Returned (RespError "Daily limit reached (3/3). Please try again in 24 hours."),
     emit (EvRateGet "unknown_user") world_used).
Proof.
  assert (H1 : sample_request !! "job_id" = Some (JStr "job_1700000000"))
    by (vm_compute; reflexivity).
  split; [exact H1 |].
  apply (refused_request_allocates_nothing env_ok sample_request world_used
           "job_1700000000" "https://r2.example/temp/job_1700000000/video.mp4"
           "unknown_user" H1).
  - vm_compute; reflexivity.
  - reflexivity.
  - reflexivity.
  - vm_compute; reflexivity.
  - discriminate.
  - discriminate.
  - vm_compute. lia.
Defined.

Section DubbedTrack.

Lemma waveforms_dubbed_track (tts : nat -> string -> option (list Q)) (i : nat)
    (segs : list Segment) :
  waveforms tts (speakable i segs) = dubbed_track tts i segs.
Proof.
  revert i. induction segs as [|seg rest IH]; intros i; [reflexivity |].
  simpl. destruct (no_translated_text seg).
  - apply IH.
  - unfold waveforms in *. simpl. rewrite IH. reflexivity.
Qed.

End DubbedTrack.

(** X13. When the synthesis stage gets to write the dubbed track (the
    cloning synthesizer, if it is the one used and is not cached, loads),
    the write is its last call and the track it writes, at 24000 Hz, is the
    concatenation in segment order of the waveforms of the segments whose
    translated text is not empty and whose synthesis call returned: a segment
    whose call raises adds nothing and stops nothing. In the fallback mode
    the calls use the voice of the table for the detected gender. *)
Theorem synthesis_writes_segments_in_order
    (env : Env) (job_dir vocals dubbed target : string) (segs : list Segment) (w : World) :
  (target ∈ xtts_langs -> XTTS_MODEL w = None -> load_xtts env = Some tt) ->
  exists tts evs,
    trace (synthesis env job_dir vocals dubbed target segs w).2 =
      trace w ++ evs ++ [EvSfWrite dubbed (dubbed_track tts 0 segs) 24000] /\
    (if bool_decide (target ∈ xtts_langs) then tts = xtts_tts env
     else exists voice,
         persona target (classified_gender env vocals) = Some voice /\
         tts = fun i t => edge_tts env i t voice).
Proof.
  intros Hload. destruct (decide (target ∈ xtts_langs)) as [Hin | Hout].
  - exists (xtts_tts env). rewrite bool_decide_eq_true_2 by exact Hin.
    rewrite synthesis_cloning_run by (try exact Hin; apply (Hload Hin)).
    rewrite waveforms_dubbed_track.
    exists (match XTTS_MODEL w with None => [EvLoadXTTS] | Some _ => [] end ++
            map (fun c => EvXTTS c.2 vocals target) (speakable 0 segs)).
    split; [| reflexivity].
    unfold external, bind, call.
    destruct (sf_write env _); simpl; rewrite trace_xtts_ready, <- !app_assoc; reflexivity.
  - destruct (synthesis_fallback_run env job_dir vocals dubbed target segs w Hout)
      as (voice & Hpersona & Hrun).
    exists (fun i t => edge_tts env i t voice). rewrite bool_decide_eq_false_2 by exact Hout.
    rewrite Hrun, waveforms_dubbed_track.
    exists (EvDetectGender vocals ::
            map (fun c => EvEdgeTTS c.2 voice (temp_seg_file job_dir c.1))
                (speakable 0 segs)).
    split; [| eauto].
    unfold external, bind, call.
    destruct (sf_write env _); simpl; rewrite <- ?app_assoc; reflexivity.
Qed.

Lemma synthesis_writes_segments_in_order_witness :
  exists tts evs,
    trace (synthesis env_ok "/data/dubbing/job_1700000000" (vocals sample_job)
                     (dubbed_audio "/data/dubbing/job_1700000000") "hi"
                     (translated_segments (translate env_ok) 0 (segments sample_job))
                     world0).2 =
      trace world0 ++ evs ++
      [EvSfWrite (dubbed_audio "/data/dubbing/job_1700000000")
                 (dubbed_track tts 0
                    (translated_segments (translate env_ok) 0 (segments sample_job)))
                 24000] /\
    tts = xtts_tts env_ok.
Proof.
  destruct (synthesis_writes_segments_in_order env_ok "/data/dubbing/job_1700000000"
              (vocals sample_job) (dubbed_audio "/data/dubbing/job_1700000000") "hi"
              (translated_segments (translate env_ok) 0 (segments sample_job)) world0)
    as (tts & evs & Htrace & Hmode).
  - intros _ _. reflexivity.
  - exists tts, evs. split; [exact Htrace | exact Hmode].
Defined.

(** ** The front end *)

(** Case analysis on the outcome of the next call a goal depends on. *)
Ltac next_outcome :=
  match goal with
  | |- context [match ?x with _ => _ end] =>
    lazymatch x with
    | context [match _ with _ => _ end] => fail
    | _ => destruct x eqn:?
    end
  end.

Ltac next_outcome_in H :=
  match type of H with
  | context [match ?x with _ => _ end] =>
    lazymatch x with
    | context [match _ with _ => _ end] => fail
    | _ => destruct x eqn:?
    end
  end.

Ltac unfold_app :=
  unfold App.on_click, App.download_video_locally, App.upload_to_r2, App.fn,
    App.try_except, App.bind, App.external, App.query, App.call, App.pure,
    App.return_, App.raise.

(** X14. A path returned by [download_video_locally] is always
    [<cwd>/downloads/video.mp4], and it is returned only after the download
    call returned and the file was found to exist and to hold at least
    102400 bytes. *)
Theorem download_returns_checked_file
    (S : Type) (env : App.Env) (url p : string) (t t' : list App.Event) :
  @App.download_video_locally S env url t = (Val (Some p), t') ->
  p = App.path_join (App.path_join (App.getcwd env) "downloads") "video.mp4" /\
  App.ydl_download env url p = Some tt /\
  App.exists_ env p = true /\
  exists size, App.getsize env p = Some size /\ (102400 <= size)%Z.
Proof.
  unfold_app. intros H.
  repeat (simpl in H; next_outcome_in H); simpl in H; try discriminate H.
  injection H as <- _.
  repeat match goal with u : unit |- _ => destruct u end.
  split; [reflexivity |]. split; [assumption |].
  split; [apply negb_false_iff; assumption |].
  eexists. split; [eassumption | lia].
Qed.

Lemma download_returns_checked_file_witness :
  let p := App.path_join (App.path_join "/app" "downloads") "video.mp4" in
  @App.download_video_locally unit (App.sample_env 200000 None) "https://youtu.be/x" []
    = (Val (Some p), [App.EvMakedirs "/app/downloads";
                      App.EvYdlDownload "https://youtu.be/x" p]) /\
  exists size, App.getsize (App.sample_env 200000 None) p = Some size /\ (102400 <= size)%Z.
Proof.
  intros p.
  assert (H : @App.download_video_locally unit (App.sample_env 200000 None)
                "https://youtu.be/x" []
              = (Val (Some p), [App.EvMakedirs "/app/downloads";
                                App.EvYdlDownload "https://youtu.be/x" p]))
    by (vm_compute; reflexivity).
  split; [exact H |].
  exact (proj2 (proj2 (proj2 (download_returns_checked_file unit _ _ _ _ _ H)))).
Defined.

(** X15. Once the downloads directory is made, [download_video_locally]
    does not raise, whatever the download does, and calls nothing but the
    download. *)
Theorem download_never_raises
    (S : Type) (env : App.Env) (url : string) (t : list App.Event) :
  let download_dir := App.path_join (App.getcwd env) "downloads" in
  let video_path := App.path_join download_dir "video.mp4" in
  App.makedirs env download_dir = Some tt ->
  exists result,
    @App.download_video_locally S env url t =
      (Val result, t ++ [App.EvMakedirs download_dir; App.EvYdlDownload url video_path]).
Proof.
  intros download_dir video_path Hdir. unfold_app.
  fold download_dir. rewrite Hdir. fold video_path.
  repeat (simpl; next_outcome); simpl; rewrite <- app_assoc; eauto.
Qed.

Lemma download_never_raises_witness :
  App.makedirs (App.sample_env 2000 None) (App.path_join "/app" "downloads") = Some tt /\
  exists result,
    @App.download_video_locally unit (App.sample_env 2000 None) "https://youtu.be/x" [] =
      (Val result,
       [] ++ [App.EvMakedirs (App.path_join "/app" "downloads");
              App.EvYdlDownload "https://youtu.be/x"
                (App.path_join (App.path_join "/app" "downloads") "video.mp4")]).
Proof.
  assert (H : App.makedirs (App.sample_env 2000 None) (App.path_join "/app" "downloads")
              = Some tt) by reflexivity.
  split; [exact H |].
  exact (download_never_raises unit (App.sample_env 2000 None) "https://youtu.be/x" [] H).
Defined.

(** X16. [upload_to_r2] never raises. It returns either (None, None) or a
    locator together with the key [temp/<job_id>/video.mp4]; in the second
    case the upload of the file under that key returned and the locator is
    the one signed for that key for 86400 seconds. *)
Theorem upload_to_r2_all_or_nothing
    (S : Type) (env : App.Env) (video_path job_id : string) (t : list App.Event) :
  let key := ("temp/" ++ job_id ++ "/video.mp4")%string in
  exists result t',
    @App.upload_to_r2 S env video_path job_id t = (Val result, t') /\
    (result = (None, None) \/
     exists url,
       result = (Some url, Some key) /\
       App.upload_fileobj env video_path key = Some tt /\
       App.generate_presigned_url env key 86400 = Some url /\
       t' = t ++ [App.EvR2Upload video_path key; App.EvR2Presign key 86400]).
Proof.
  intros key. unfold_app. fold key.
  repeat (simpl; next_outcome); simpl; eexists _, _; (split; [reflexivity |]);
    try (left; reflexivity).
  right. eexists. repeat match goal with u : unit |- _ => destruct u end.
  rewrite <- app_assoc. auto.
Qed.

(** X17. One click makes at most one request to the back end, and only
    after the video was uploaded to the bucket and its locator signed. The
    request carries that locator, the selected language, the job identifier
    made from the clock and the client identifier of the session. After the
    request, whatever its outcome (an answer, an HTTP error, a timeout, any
    exception), the removal of the local video file is the last call; the
    temporary object is deleted from the bucket in between exactly when
    the back end answered 200 with status "success" and the bucket client
    could be made. When no request is made, nothing is deleted or
    removed. *)
Theorem click_posts_once_then_cleans
    (env : App.Env) (uploaded_file : option unit)
    (youtube_url target_lang client_id : string) :
  let job_id := new_job_id (App.time env) in
  let key := ("temp/" ++ job_id ++ "/video.mp4")%string in
  let calls := (App.on_click env uploaded_file youtube_url target_lang client_id []).2 in
  exists before,
    Forall (fun e => App.closing e = false) before /\
    (calls = before \/
     exists video_path url,
       let payload := App.mkPayload url target_lang job_id client_id in
       last before = Some (App.EvR2Presign key 86400) /\
       App.upload_fileobj env video_path key = Some tt /\
       App.generate_presigned_url env key 86400 = Some url /\
       ((calls = before ++ [App.EvPost payload; App.EvRemove video_path] /\
         App.answered_success env payload && bool_decide (is_Some (App.get_r2_client env 1))
           = false) \/
        (calls = before ++ [App.EvPost payload; App.EvR2Delete key;
                            App.EvRemove video_path] /\
         App.answered_success env payload && bool_decide (is_Some (App.get_r2_client env 1))
           = true))).
Proof.
  intros job_id key calls. unfold calls. unfold_app.
  fold job_id. fold key.
  repeat (simpl; next_outcome); simpl;
    repeat match goal with u : unit |- _ => destruct u end;
    match goal with
    | |- ex (fun before => _ /\ (?l = before \/ _)) =>
      tryif (lazymatch l with context [App.EvPost _] => idtac end)
      then
        (eexists [_; _; _; _];
         (split;
          [| right; eexists _, _; cbv zeta;
             (split; [reflexivity |]);
             (split; [first [eassumption | reflexivity] |]);
             (split; [first [eassumption | reflexivity] |]);
             unfold App.answered_success;
             repeat match goal with
                    | H : App.post _ _ = _ |- _ => rewrite H
                    | H : App.json _ = _ |- _ => rewrite H
                    | H : (App.status_code _ =? 200)%Z = _ |- _ => rewrite H
                    | H : App.is_success _ = _ |- _ => rewrite H
                    | H : App.get_r2_client _ 1 = _ |- _ => rewrite H
                    end;
             simpl; first [ left; split; reflexivity | right; split; reflexivity ] ]);
         repeat constructor)
      else
        (eexists; split; [| left; reflexivity]; repeat constructor)
    end.
Qed.

(** X18. Every language the front end offers is either handled by the
    cloning synthesizer or has its own pair of voices in the table of the
    back end: for such a request the fallback voice is a voice of the target
    language, never the English default. *)
Theorem offered_languages_have_their_voice
    (l gender : string) (w : World) :
  l ∈ target_lang_options ->
  gender = "Male" \/ gender = "Female" ->
  l ∈ xtts_langs \/
  exists voice,
    select_voice l gender w = (Val voice, w) /\
    String.prefix (l ++ "-") voice = true.
Proof.
  intros Hl Hg. unfold target_lang_options in Hl.
  repeat (apply elem_of_cons in Hl as [-> | Hl];
          [ first [ left; apply (bool_decide_unpack _); vm_compute; exact Logic.I
                  | right; destruct Hg as [-> | ->]; eexists;
                    split; vm_compute; reflexivity ] |]).
  apply elem_of_nil in Hl. contradiction.
Qed.

Lemma offered_languages_have_their_voice_witness :
  "ta" ∈ target_lang_options /\
  ("Female" = "Male" \/ "Female" = "Female") /\
  ("ta" ∈ xtts_langs \/
   exists voice,
     select_voice "ta" "Female" world0 = (Val voice, world0) /\
     String.prefix ("ta" ++ "-") voice = true).
Proof.
  assert (H1 : "ta" ∈ target_lang_options)
    by (apply (bool_decide_unpack _); vm_compute; exact Logic.I).
  assert (H2 : "Female" = "Male" \/ "Female" = "Female") by (right; reflexivity).
  split; [exact H1 |]. split; [exact H2 |].
  exact (offered_languages_have_their_voice "ta" "Female" world0 H1 H2).
Defined.

Lemma cached_align_model_is_reused_witness :
  let w1 := (dub_video env_ok sample_request world0).2 in
  ALIGN_MODEL w1 = Some "en" /\
  exists evs,
    trace (transcription env_french "vocals.wav" w1).2 = trace w1 ++ evs /\
    Forall (fun e => match e with
                     | EvLoadAlign _ => False
                     | EvAlign model_language => model_language = "en"
                     | _ => True
                     end) evs.
Proof.
  intros w1.
  assert (H : ALIGN_MODEL w1 = Some "en") by (vm_compute; reflexivity).
  split; [exact H |].
  exact (cached_align_model_is_reused env_french "vocals.wav" "en" w1 H).
Defined.

(** X19. A request that lacks [job_id], or that has it and lacks
    [video_url], makes [dub_video] raise [KeyError] on the missing field,
    and a null [job_id] makes it raise [TypeError]; this happens before the
    checks of the entry, and the world is left as it was. *)
Theorem malformed_request_raises
    (env : Env) (item : gmap string jval) (w : World) :
  (item !! "job_id" = None ->
   dub_video env item w = (Raised (KeyError "job_id"), w)) /\
  (is_Some (item !! "job_id") -> item !! "video_url" = None ->
   dub_video env item w = (Raised (KeyError "video_url"), w)) /\
  (item !! "job_id" = Some JNull -> is_Some (item !! "video_url") ->
   dub_video env item w = (Raised TypeError, w)).
Proof.
  unfold dub_video, handle, dub_video_body, item_index, bind.
  repeat split.
  - intros ->. reflexivity.
  - intros [v ->] ->. reflexivity.
  - intros -> [v ->]. reflexivity.
Qed.

Lemma malformed_request_raises_witness :
  (∅ : gmap string jval) !! "job_id" = None /\
  dub_video env_ok ∅ world_used = (Raised (KeyError "job_id"), world_used).
Proof.
  assert (H : (∅ : gmap string jval) !! "job_id" = None) by reflexivity.
  split; [exact H |].
  exact (proj1 (malformed_request_raises env_ok ∅ world_used) H).
Defined.

Section Admission.

Lemma record_kept_after_admission (env : Env) (job_id video_url : string)
    (target_lang : jval) (cid : string) (v : option (list Q)) :
  guarantees (fun w => rate_limiter w !! cid = v)
             (fun _ w => rate_limiter w !! cid = v)
             (dub_after_admission env job_id video_url target_lang).
Proof.
  unfold dub_after_admission. unfold_stages. guarantees_auto invariant_side.
Qed.

End Admission.

(** X20. An admitted request is counted whatever happens next: once the
    rate limiter has let a metered client in, the stamp of the request stays
    in the record of the client when the job succeeds, when it returns an
    error result and when it raises. *)
Theorem admitted_request_is_counted
    (env : Env) (item : gmap string jval) (w : World) (j u cid : string) :
  item !! "job_id" = Some (JStr j) ->
  item !! "video_url" = Some (JStr u) ->
  re_match_job_id j = true ->
  String.prefix "http://" u || String.prefix "https://" u = true ->
  item_get item "client_id" "unknown_user" = JStr cid ->
  cid <> "" -> cid <> "anonymous" ->
  (length (valid_at (now env) (rate_get cid w)) < 3)%nat ->
  rate_limiter (dub_video env item w).2 !! cid =
    Some (valid_at (now env) (rate_get cid w) ++ [now env]).
Proof.
  intros Hj Hu Hm Hp Hc Hne Hna Hfree.
  assert (Hrun : forall w1,
            rate_limiter w1 !! cid = Some (valid_at (now env) (rate_get cid w) ++ [now env]) ->
            rate_limiter (handle (dub_after_admission env j u
                                    (item_get item "target_lang" "hi")) w1).2 !! cid
            = Some (valid_at (now env) (rate_get cid w) ++ [now env])).
  { intros w1 Hw1.
    apply (preserved_by_handle
             (fun w' => rate_limiter w' !! cid
                        = Some (valid_at (now env) (rate_get cid w) ++ [now env]))
             _ w1 (record_kept_after_admission env j u _ cid _) Hw1). }
  unfold dub_video, handle, dub_video_body, item_index.
  rewrite Hj, Hu, Hc. unfold bind at 1 2. unfold pure at 1 2.
  unfold bind at 1. rewrite (security_checks_pass j u w Hm Hp).
  unfold bind at 1. rewrite (check_daily_limit_admitted env cid w Hne Hna Hfree).
  cbv zeta. apply Hrun. simpl. apply lookup_insert_eq.
Qed.

Lemma admitted_request_is_counted_witness :
  sample_request !! "job_id" = Some (JStr "job_1700000000") /\
  (dub_video env_fetch_fails sample_request world0).1 = Raised (OtherException "requests") /\
  rate_limiter (dub_video env_fetch_fails sample_request world0).2 !! "unknown_user" =
    Some (valid_at (now env_fetch_fails) (rate_get "unknown_user" world0)
          ++ [now env_fetch_fails]).
Proof.
  assert (H1 : sample_request !! "job_id" = Some (JStr "job_1700000000"))
    by (vm_compute; reflexivity).
  split; [exact H1 |]. split; [vm_compute; reflexivity |].
  apply (admitted_request_is_counted env_fetch_fails sample_request world0
           "job_1700000000" "https://r2.example/temp/job_1700000000/video.mp4"
           "unknown_user" H1).
  - vm_compute; reflexivity.
  - reflexivity.
  - reflexivity.
  - vm_compute; reflexivity.
  - discriminate.
  - discriminate.
  - vm_compute. lia.
Defined.
